(** * RIPP Protocol documentation link validator (scripts/validate-links.py)

    A shallow embedding of the link validator and the properties of its
    specification.

    - Python [str] is [string]; the delimiters the script looks at are all
      ASCII, so scanning the UTF-8 bytes agrees with scanning code points.
    - [pathlib.Path] values are modelled after [PurePosixPath]: a root
      (the empty string, one slash or two slashes) and a list of segments.
      The pure operations ([str], [parent], [parents], [/]) are functions.
    - The operations that ask the operating system ([resolve], [exists],
      [open], [rglob]) are the fields of an [OS] record, fixed during a run
      (the script changes nothing on disk); each call is recorded as an
      [Event], so that "no existence check is made" can be stated.
      [resolve] may raise [ValueError] or [OSError] ([None]);
      [is_path_safe] catches that, [resolve_target_path] does not, so a scan
      returns a list or raises.  Two things the library can do are left
      out: [exists] is taken to answer (on some systems it passes on an
      [OSError], for a name that is too long or a directory that may not be
      searched), and [resolve] is taken to raise nothing else (on a loop of
      symbolic links it can raise [RuntimeError], which [is_path_safe] does
      not catch).  What is proved is therefore about the records and the
      status of runs in which these calls answer, not about when the script
      raises.
    - [errors] and [checked], the two local accumulators of [check_links],
      are the fields of [ScanState]; [checked] is a finite set of strings.
    - What [main] prints is left out; its result is the exit status. *)

From Stdlib Require Import Ascii String ZArith.
From stdpp Require Import base decidable option list gmap sets strings.

Local Open Scope Z_scope.
Local Open Scope stdpp_scope.

(** ** Python string methods *)

Module Str.

(** [s.startswith(p)] *)
Fixpoint startswith (s p : string) {struct p} : bool :=
  match p with
  | EmptyString => true
  | String c p' =>
      match s with
      | EmptyString => false
      | String d s' => if Ascii.eqb d c then startswith s' p' else false
      end
  end.

(** [s.endswith(p)]: some suffix of [s] is [p]. *)
Fixpoint endswith (s p : string) : bool :=
  String.eqb s p ||
  match s with
  | EmptyString => false
  | String _ s' => endswith s' p
  end.

(** [p in s] for strings: [p] occurs in [s] as a contiguous substring. *)
Fixpoint contains (s p : string) : bool :=
  startswith s p ||
  match s with
  | EmptyString => false
  | String _ s' => contains s' p
  end.

(** [s.split(sep)] for a one-character separator; the result is never
    empty. *)
Fixpoint split (sep : ascii) (s : string) : list string :=
  match s with
  | EmptyString => [EmptyString]
  | String c s' =>
      if Ascii.eqb c sep then EmptyString :: split sep s'
      else match split sep s' with
           | h :: t => String c h :: t
           | [] => [String c EmptyString]
           end
  end.

(** [s.lstrip(c)] for a one-character set. *)
Fixpoint lstrip (c : ascii) (s : string) : string :=
  match s with
  | String d s' => if Ascii.eqb d c then lstrip c s' else s
  | EmptyString => EmptyString
  end.

(** ["sep".join(l)] *)
Fixpoint join (sep : string) (l : list string) : string :=
  match l with
  | [] => ""
  | [x] => x
  | x :: l' => x +:+ sep +:+ join sep l'
  end.

(** [s.split('#')[0]], the link without its anchor. *)
Definition strip_anchor (s : string) : string :=
  hd "" (split "#" s).

End Str.

(** ** Pure paths *)

Record Path : Type := mkPath {
  path_root : string;        (* "", "/" or "//" *)
  path_tail : list string    (* the segments after the root *)
}.

Global Instance Path_eq_dec : EqDecision Path.
Proof. solve_decision. Defined.

Module PurePath.

(** The segments of a raw path string: split at slashes, empty and dot
    segments dropped. *)
Definition segments (s : string) : list string :=
  filter (λ x, x ≠ "" ∧ x ≠ ".") (Str.split "/" s).

(** [posixpath.splitroot]: exactly two leading slashes are kept as a root
    of their own, any other number of leading slashes is one. *)
Definition splitroot (s : string) : string :=
  match s with
  | String "/" (String "/" (String "/" _)) => "/"
  | String "/" (String "/" _) => "//"
  | String "/" _ => "/"
  | _ => ""
  end.

(** [Path(s)] *)
Definition parse (s : string) : Path :=
  mkPath (splitroot s) (segments s).

(** [str(p)] *)
Definition str (p : Path) : string :=
  let s := path_root p +:+ Str.join "/" (path_tail p) in
  if decide (s = "") then "." else s.

(** [p / s]: an absolute right operand replaces the left one. *)
Definition joinpath (p : Path) (s : string) : Path :=
  if Str.startswith s "/" then parse s
  else mkPath (path_root p) (path_tail p ++ segments s).

(** [p.parent]: a path without segments is its own parent. *)
Definition parent (p : Path) : Path :=
  mkPath (path_root p) (removelast (path_tail p)).

(** [p.parents]: the chain of ancestors, nearest first. *)
Fixpoint ancestors (n : nat) (p : Path) : list Path :=
  match n with
  | O => []
  | S n' => parent p :: ancestors n' (parent p)
  end.

Definition parents (p : Path) : list Path :=
  ancestors (length (path_tail p)) p.

End PurePath.

Notation "p // s" := (PurePath.joinpath p s) (at level 40, left associativity).

(** ** The operating system and the effects of the script *)

(** What the script asks of its environment.  [os_resolve] is
    [Path.resolve()], which raises [ValueError] or [OSError] on some paths
    ([None]); [os_exists] is [Path.exists()], taken to answer; [os_read] is
    opening and
    reading a file as text, [None] when that raises [IOError] or [OSError];
    [os_rglob] lists the paths [root.rglob('*.md')] yields. *)
Record OS : Type := mkOS {
  os_resolve : Path → option Path;
  os_exists : Path → bool;
  os_read : Path → option string;
  os_rglob : Path → list Path
}.

Inductive Event : Type :=
  | EvRglob (root : Path)       (* the tree under [root] is enumerated *)
  | EvOpen (p : Path)           (* [open(p)] *)
  | EvWarn (p : Path)           (* the warning on stderr about [p] *)
  | EvResolve (p : Path)        (* [p.resolve()] *)
  | EvExists (p : Path).        (* [p.exists()] *)

Global Instance Event_eq_dec : EqDecision Event.
Proof. solve_decision. Defined.

(** A computation returns a value, or raises ([None]), and in both cases
    leaves the events it caused, oldest first. *)
Definition M (A : Type) : Type := (option A * list Event)%type.

Global Instance M_ret : MRet M := λ A a, (Some a, []).

Global Instance M_bind : MBind M := λ A B f m,
  match m with
  | (Some a, t) => let '(r, t') := f a in (r, t ++ t')
  | (None, t) => (None, t)
  end.

Global Instance M_fmap : FMap M := λ A B f m, (f <$> fst m, snd m).

(** [try: m except (ValueError, OSError): h]; a failure of [m] is one of
    these two, the only failures the model has. *)
Definition try_except {A} (m : M A) (h : M A) : M A :=
  match m with
  | (Some a, t) => (Some a, t)
  | (None, t) => let '(r, t') := h in (r, t ++ t')
  end.

(** A [for] loop that threads the loop state. *)
Fixpoint for_each {A S} (body : A → S → M S) (l : list A) (s : S) : M S :=
  match l with
  | [] => mret s
  | x :: l' => s' ← body x s; for_each body l' s'
  end.

Definition value {A} (m : M A) : option A := fst m.
Definition events {A} (m : M A) : list Event := snd m.

(** ** The data of a scan *)

Record ErrorRecord : Type := mkError {
  err_file : string;
  err_link : string;
  err_expected : string;
  err_type : string
}.

Global Instance ErrorRecord_eq_dec : EqDecision ErrorRecord.
Proof. solve_decision. Defined.

Record ScanState : Type := mkScan {
  errors : list ErrorRecord;
  checked : gset string
}.

Definition append_error (e : ErrorRecord) (st : ScanState) : ScanState :=
  mkScan (errors st ++ [e]) (checked st).

Definition add_checked (k : string) (st : ScanState) : ScanState :=
  mkScan (errors st) ({[k]} ∪ checked st).

(** ** Link classification *)

Definition is_external_link (link : string) : bool :=
  Str.startswith link "http://" || Str.startswith link "https://"
  || Str.startswith link "mailto:".

Definition is_anchor_only (link : string) : bool :=
  Str.startswith link "#".

Definition has_liquid_template (link : string) : bool :=
  Str.contains link "{{" || Str.contains link "}}".

Definition is_wiki_style_link (link : string) (file_path : Path) : bool :=
  Str.contains (PurePath.str file_path) "docs/wiki"
  && negb (Str.endswith link ".md")
  && negb (Str.endswith link "/")
  && negb (Str.contains (Str.strip_anchor link) "/").

(** ** Link extraction

    [re.findall] with the pattern of [find_markdown_links]: an opening
    bracket, any characters other than a closing bracket (the text), a
    closing bracket, an opening parenthesis, one or more characters other
    than a closing parenthesis (the url), a closing parenthesis. *)

(** The characters before the first [c] and the text after that [c]. *)
Fixpoint span_until (c : ascii) (s : string) : option (string * string) :=
  match s with
  | EmptyString => None
  | String d s' =>
      if Ascii.eqb d c then Some (EmptyString, s')
      else match span_until c s' with
           | Some (a, r) => Some (String d a, r)
           | None => None
           end
  end.

(** A match of the pattern that starts at the head of [s]: the two groups
    and the text after the match.  Both character classes exclude the
    character that must follow them, so the greedy match is the only one:
    the text runs to the first closing bracket, the url to the first closing
    parenthesis, and the url is not empty. *)
Definition match_link (s : string) : option (string * string * string) :=
  match s with
  | String "[" s1 =>
      match span_until "]" s1 with
      | Some (text, String "(" s2) =>
          match span_until ")" s2 with
          | Some (url, rest) =>
              if decide (url = "") then None else Some (text, url, rest)
          | None => None
          end
      | _ => None
      end
  | _ => None
  end.

(** The matches from left to right, not overlapping: after a match the scan
    goes on behind it, otherwise one character further. *)
Fixpoint scan_links (fuel : nat) (s : string) : list (string * string) :=
  match fuel with
  | O => []
  | S fuel' =>
      match s with
      | EmptyString => []
      | String _ s' =>
          match match_link s with
          | Some (text, url, rest) => (text, url) :: scan_links fuel' rest
          | None => scan_links fuel' s'
          end
      end
  end.

Definition find_markdown_links (content : string) : list (string * string) :=
  scan_links (String.length content) content.

(** ** The scanner *)

Section Scanner.

Context (os : OS).
(** The module constant [REPO_ROOT]; [compute_REPO_ROOT] below is how the
    script obtains it when it is loaded. *)
Context (REPO_ROOT : Path).

Definition resolve (p : Path) : M Path := (os_resolve os p, [EvResolve p]).
Definition exists_ (p : Path) : M bool := (Some (os_exists os p), [EvExists p]).
Definition read_text (p : Path) : M string := (os_read os p, [EvOpen p]).
Definition warn (p : Path) : M unit := (Some (), [EvWarn p]).
Definition rglob_md (root : Path) : M (list Path) :=
  (Some (os_rglob os root), [EvRglob root]).

Definition is_path_safe (target_path : Path) : M bool :=
  try_except
    (resolved_target ← resolve target_path;
     resolved_root ← resolve REPO_ROOT;
     mret (bool_decide (resolved_target = resolved_root)
           || bool_decide (resolved_root ∈ PurePath.parents resolved_target)))
    (mret false).

Definition resolve_target_path (link : string) (file_path : Path)
    : M (option Path) :=
  let clean_link := Str.strip_anchor link in
  target ← (if Str.startswith clean_link "/"
            then mret (REPO_ROOT // "docs" // Str.lstrip "/" clean_link)
            else resolve (PurePath.parent file_path // clean_link));
  safe ← is_path_safe target;
  if negb safe then mret None else mret (Some target).

Definition check_wiki_style_link (link : string) (file_path : Path) : M bool :=
  let target_with_ext := PurePath.parent file_path // (link +:+ ".md") in
  safe ← is_path_safe target_with_ext;
  if negb safe then mret false else exists_ target_with_ext.

Definition check_key (md_file : Path) (link : string) : string :=
  PurePath.str md_file +:+ ":" +:+ link.

(** The body of the inner loop of [check_links]; every [continue] returns
    the state as it is. *)
Definition check_link (md_file : Path) (link : string) (st : ScanState)
    : M ScanState :=
  if is_external_link link then mret st
  else if is_anchor_only link then mret st
  else if has_liquid_template link then mret st
  else
    let clean_link := Str.strip_anchor link in
    if decide (clean_link = "") then mret st
    else if decide (check_key md_file link ∈ checked st) then mret st
    else
      let st := add_checked (check_key md_file link) st in
      if is_wiki_style_link clean_link md_file then
        ok ← check_wiki_style_link clean_link md_file;
        if negb ok then
          mret (append_error
                  (mkError (PurePath.str md_file) link
                     (PurePath.str
                        (PurePath.parent md_file // (clean_link +:+ ".md")))
                     "wiki-style") st)
        else mret st
      else
        target ← resolve_target_path clean_link md_file;
        match target with
        | None =>
            mret (append_error
                    (mkError (PurePath.str md_file) link
                       "UNSAFE PATH (outside repository)" "security") st)
        | Some target =>
            found ← exists_ target;
            if negb found then
              mret (append_error
                      (mkError (PurePath.str md_file) link
                         (PurePath.str target) "regular") st)
            else mret st
        end.

(** Whether discovery leaves a file out. *)
Definition excluded (md_file : Path) : bool :=
  (Str.contains (PurePath.str md_file) "node_modules"
   || Str.contains (PurePath.str md_file) ".git")
  || Str.contains (PurePath.str md_file) "docs/audit".

(** The body of the outer loop of [check_links]. *)
Definition check_file (md_file : Path) (st : ScanState) : M ScanState :=
  if Str.contains (PurePath.str md_file) "node_modules"
     || Str.contains (PurePath.str md_file) ".git" then mret st
  else if Str.contains (PurePath.str md_file) "docs/audit" then mret st
  else
    content ← try_except (Some <$> read_text md_file)
                         (_ ← warn md_file; mret None);
    match content with
    | None => mret st
    | Some content =>
        for_each (λ '(text, link) st, check_link md_file link st)
          (find_markdown_links content) st
    end.

Definition check_links (root_dir : string) : M (list ErrorRecord) :=
  let root_path := PurePath.parse root_dir in
  files ← rglob_md root_path;
  st ← for_each check_file files (mkScan [] ∅);
  mret (errors st).

(** The default of the parameter [root_dir]. *)
Definition default_root_dir : string := ".".

(** [main] without its printing: the status it returns. *)
Definition main : M Z :=
  errs ← check_links default_root_dir;
  if bool_decide (errs ≠ []) then mret 1 else mret 0.

End Scanner.

(** [REPO_ROOT = Path(__file__).resolve().parent.parent] *)
Definition compute_REPO_ROOT (os : OS) (script : string) : M Path :=
  p ← resolve os (PurePath.parse script);
  mret (PurePath.parent (PurePath.parent p)).

(** The script as a whole: the module is loaded, then [main] runs. *)
Definition program (os : OS) (script : string) : M Z :=
  REPO_ROOT ← compute_REPO_ROOT os script;
  main os REPO_ROOT.

(** ** Derived notions used to state the properties *)

Section Derived.

Context (os : OS) (REPO_ROOT : Path).

(** The answer of [is_path_safe]: the target resolves, the root resolves,
    and the resolved root is the resolved target or one of its ancestors. *)
Definition path_safe (target_path : Path) : bool :=
  match os_resolve os target_path, os_resolve os REPO_ROOT with
  | Some resolved_target, Some resolved_root =>
      bool_decide (resolved_target = resolved_root)
      || bool_decide (resolved_root ∈ PurePath.parents resolved_target)
  | _, _ => false
  end.

(** The target of a regular link, as [resolve_target_path] computes it
    before it asks whether the target is safe. *)
Definition regular_target (clean_link : string) (file_path : Path)
    : option Path :=
  if Str.startswith clean_link "/"
  then Some (REPO_ROOT // "docs" // Str.lstrip "/" clean_link)
  else os_resolve os (PurePath.parent file_path // clean_link).

(** A link that gets past the skips of [check_links] and is then handled
    as a wiki-style link, or as a regular link. *)
Definition not_skipped (link : string) : bool :=
  negb (is_external_link link) && negb (is_anchor_only link)
  && negb (has_liquid_template link)
  && negb (bool_decide (Str.strip_anchor link = "")).

Definition classified_wiki (md_file : Path) (link : string) : bool :=
  not_skipped link && is_wiki_style_link (Str.strip_anchor link) md_file.

Definition classified_regular (md_file : Path) (link : string) : bool :=
  not_skipped link
  && negb (is_wiki_style_link (Str.strip_anchor link) md_file).

(** The link occurs in a file that a scan of [root_dir] reads. *)
Definition extracted_from (root_dir : string) (md_file : Path) (link : string)
    : Prop :=
  md_file ∈ os_rglob os (PurePath.parse root_dir)
  ∧ excluded md_file = false
  ∧ ∃ content text,
      os_read os md_file = Some content
      ∧ (text, link) ∈ find_markdown_links content.

(** No other pair of a scanned file and a link has the key of this pair. *)
Definition key_unique (root_dir : string) (md_file : Path) (link : string)
    : Prop :=
  ∀ f l, f ∈ os_rglob os (PurePath.parse root_dir) →
         check_key f l = check_key md_file link → f = md_file ∧ l = link.

(** No other scanned file is written like this one. *)
Definition str_unique (root_dir : string) (md_file : Path) : Prop :=
  ∀ f, f ∈ os_rglob os (PurePath.parse root_dir) →
       PurePath.str f = PurePath.str md_file → f = md_file.

(** The key under which a record would have been deduplicated. *)
Definition record_key (e : ErrorRecord) : string :=
  err_file e +:+ ":" +:+ err_link e.

(** What deduplication maintains: the keys of the records are pairwise
    distinct and have all been entered in [checked]. *)
Definition dedup_invariant (st : ScanState) : Prop :=
  NoDup (record_key <$> errors st)
  ∧ ∀ e, e ∈ errors st → record_key e ∈ checked st.

(** The same system with the files that cannot be read left out of what
    [rglob] yields. *)
Definition drop_unreadable : OS :=
  mkOS (os_resolve os) (os_exists os) (os_read os)
       (λ root, filter (λ p, is_Some (os_read os p)) (os_rglob os root)).


(** A path resolution. *)
Definition resolve_only (e : Event) : Prop :=
  match e with EvResolve _ => True | _ => False end.

(** An event that checking a link can cause: a path resolution, or an
    existence check of a safe path. *)
Definition link_event (e : Event) : Prop :=
  match e with
  | EvResolve _ => True
  | EvExists p => path_safe p = true
  | _ => False
  end.

(** An event that is not an existence check. *)
Definition not_probe (e : Event) : Prop :=
  match e with EvExists _ => False | _ => True end.

(** An event that is not an existence check of an unsafe path. *)
Definition safe_probe (e : Event) : Prop :=
  match e with EvExists p => path_safe p = true | _ => True end.

End Derived.

(** ** A concrete operating system

    A file system without symbolic links, given by its regular files (with
    absolute paths and their text) and the working directory of the process.  Resolution is
    then lexical: a relative path is put under the working directory and the
    [..] segments are collapsed. *)

Module LexFS.

Record FS : Type := mkFS {
  fs_cwd : Path;
  fs_files : list (Path * option string)   (* [None]: cannot be read *)
}.

(** Segments with [..] collapsed; [stack] holds the segments kept so far,
    innermost first.  At the root [..] stays at the root. *)
Fixpoint collapse (stack segs : list string) : list string :=
  match segs with
  | [] => rev stack
  | s :: segs' =>
      if decide (s = "..") then collapse (tl stack) segs'
      else collapse (s :: stack) segs'
  end.

Definition lex_resolve (fs : FS) (p : Path) : Path :=
  mkPath "/"
    (collapse []
       ((if decide (path_root p = "") then path_tail (fs_cwd fs) else [])
        ++ path_tail p)).

Definition is_prefix (l1 l2 : list string) : bool :=
  bool_decide (take (length l1) l2 = l1).

(** The segments [t] name a regular file; they name a directory: the root,
    or what a file lies below. *)
Definition is_file (fs : FS) (t : list string) : bool :=
  existsb (λ f, bool_decide (path_tail (fst f) = t)) (fs_files fs).

Definition is_dir (fs : FS) (t : list string) : bool :=
  bool_decide (t = [])
  || existsb (λ f, is_prefix t (path_tail (fst f))
                   && negb (bool_decide (path_tail (fst f) = t)))
       (fs_files fs).

(** The walk of the system along the segments of a path, from the directory
    [cur]: every segment but the last must name a directory before the walk
    goes on, also when the next segment is [..], and the last must name a
    file or a directory. *)
Fixpoint walk (fs : FS) (cur segs : list string) : bool :=
  match segs with
  | [] => true
  | s :: segs' =>
      if decide (s = "..") then walk fs (removelast cur) segs'
      else if is_dir fs (cur ++ [s]) then walk fs (cur ++ [s]) segs'
      else match segs' with
           | [] => is_file fs (cur ++ [s])
           | _ => false
           end
  end.

(** [exists()] follows the path as it is written, from the root or from the
    working directory (taken to exist); it does not collapse [..] first. *)
Definition lex_exists (fs : FS) (p : Path) : bool :=
  walk fs
    (if decide (path_root p = "") then collapse [] (path_tail (fs_cwd fs))
     else [])
    (path_tail p).

Definition lex_read (fs : FS) (p : Path) : option string :=
  f ← find (λ f, bool_decide (fst f = lex_resolve fs p)) (fs_files fs);
  snd f.

(** The files below [root] whose name ends in [.md], each as [root]
    followed by the segments below it. *)
Definition lex_rglob (fs : FS) (root : Path) : list Path :=
  let r := path_tail (lex_resolve fs root) in
  omap (λ f,
          let t := path_tail (fst f) in
          if is_prefix r t && Str.endswith (List.last t "") ".md"
             && negb (bool_decide (t = r))
          then Some (mkPath (path_root root)
                       (path_tail root ++ drop (length r) t))
          else None)
       (fs_files fs).

Definition to_OS (fs : FS) : OS :=
  mkOS (λ p, Some (lex_resolve fs p)) (lex_exists fs) (lex_read fs)
       (lex_rglob fs).

End LexFS.

(** ** A documentation tree to run the scanner on *)

Module Examples.

Definition script : string := "/repo/scripts/validate-links.py".

Definition repo_root : Path := PurePath.parse "/repo".

Definition tree : list (Path * option string) :=
  [ (PurePath.parse "/repo/README.md",
     Some "See [site](https://example.com/docs) and [top](#top).");
    (PurePath.parse "/repo/docs/guide.md",
     Some "[setup](./setup.md) [wiki](wiki/Home.md) [root](/guide.md) [again](./setup.md)");
    (PurePath.parse "/repo/docs/a.md",
     Some "[up](../../../../etc/passwd)");
    (PurePath.parse "/repo/docs/wiki/Home.md",
     Some "[Other](OtherPage) [Missing](Nope#sec)");
    (PurePath.parse "/repo/docs/wiki/OtherPage.md", Some "");
    (PurePath.parse "/repo/docs/audit/old.md", Some "[broken](nothing.md)");
    (PurePath.parse "/repo/.github/CONTRIBUTING.md",
     Some "[broken](nothing.md)");
    (PurePath.parse "/repo/docs/locked.md", None);
    (PurePath.parse "/repo/scripts/validate-links.py", Some "") ].

(** The tool started in the repository root, and started in [docs]. *)
Definition at_root : OS :=
  LexFS.to_OS (LexFS.mkFS (PurePath.parse "/repo") tree).


Definition guide : Path := PurePath.parse "docs/guide.md".
Definition home : Path := PurePath.parse "docs/wiki/Home.md".

(** The state a scan starts with. *)
Definition start : ScanState := mkScan [] ∅.

(** Two files whose links get the same deduplication key: the file name of
    the second continues in the link of the first. *)
Definition colliding_tree : list (Path * option string) :=
  [ (PurePath.parse "/repo/docs/a.md",
     Some "[x](b.md:../../../../etc/passwd)");
    (PurePath.parse "/repo/docs/a.md:b.md",
     Some "[y](../../../../etc/passwd)") ].

Definition with_collision : OS :=
  LexFS.to_OS (LexFS.mkFS (PurePath.parse "/repo") colliding_tree).

(** The same in the wiki: the page named in the second file is missing. *)
Definition colliding_wiki_tree : list (Path * option string) :=
  [ (PurePath.parse "/repo/docs/wiki/a.md", Some "[x](b.md:Nope)");
    (PurePath.parse "/repo/docs/wiki/a.md:b.md", Some "[y](Nope)") ].

Definition with_wiki_collision : OS :=
  LexFS.to_OS (LexFS.mkFS (PurePath.parse "/repo") colliding_wiki_tree).

(** A root-relative link that goes through a directory that does not exist
    and back, to a file that does. *)
Definition detour_tree : list (Path * option string) :=
  [ (PurePath.parse "/repo/docs/guide.md", Some "");
    (PurePath.parse "/repo/docs/index.md",
     Some "[guide](/nonexistent/../guide.md)") ].

Definition with_detour : OS :=
  LexFS.to_OS (LexFS.mkFS (PurePath.parse "/repo") detour_tree).

(** What the scan started in the repository root reports. *)
Definition report_at_root : list ErrorRecord :=
  [ mkError "docs/guide.md" "./setup.md" "/repo/docs/setup.md" "regular";
    mkError "docs/a.md" "../../../../etc/passwd"
      "UNSAFE PATH (outside repository)" "security";
    mkError "docs/wiki/Home.md" "Nope#sec" "docs/wiki/Nope.md" "wiki-style" ].

End Examples.

(** ** Notions for the properties beyond the specification *)

(** The text of a markdown link, as [find_markdown_links] looks for it. *)
Definition markdown_link (text url : string) : string :=
  "[" +:+ text +:+ "](" +:+ url +:+ ")".

Section Verdicts.

Context (os : OS) (REPO_ROOT : Path).

(** The record [e] is what [check_links] appends for [link] in [md_file]:
    the wiki-style record of a page that is unsafe or missing, the security
    record of an unsafe regular target, or the regular record of a safe
    regular target that does not exist. *)
Definition justified (md_file : Path) (link : string) (e : ErrorRecord)
    : Prop :=
  err_file e = PurePath.str md_file ∧ err_link e = link
  ∧ ((classified_wiki md_file link = true
      ∧ ∃ target,
          target = PurePath.parent md_file // (Str.strip_anchor link +:+ ".md")
          ∧ path_safe os REPO_ROOT target && os_exists os target = false
          ∧ err_expected e = PurePath.str target
          ∧ err_type e = "wiki-style")
     ∨ (classified_regular md_file link = true
        ∧ ∃ target,
            regular_target os REPO_ROOT (Str.strip_anchor link) md_file
            = Some target
            ∧ ((path_safe os REPO_ROOT target = false
                ∧ err_expected e = "UNSAFE PATH (outside repository)"
                ∧ err_type e = "security")
               ∨ (path_safe os REPO_ROOT target = true
                  ∧ os_exists os target = false
                  ∧ err_expected e = PurePath.str target
                  ∧ err_type e = "regular")))).

(** The link is valid: a wiki-style link whose page is safe and exists, or
    a regular link whose target is safe and exists. *)
Definition link_ok (md_file : Path) (link : string) : Prop :=
  (classified_wiki md_file link = true
   ∧ path_safe os REPO_ROOT
       (PurePath.parent md_file // (Str.strip_anchor link +:+ ".md"))
     && os_exists os
          (PurePath.parent md_file // (Str.strip_anchor link +:+ ".md"))
     = true)
  ∨ (classified_regular md_file link = true
     ∧ ∃ target,
         regular_target os REPO_ROOT (Str.strip_anchor link) md_file
         = Some target
         ∧ path_safe os REPO_ROOT target = true
         ∧ os_exists os target = true).

(** An event of a scan of [root_dir] that concerns a file: only files the
    enumeration yields and discovery keeps are opened, and a warning is
    about such a file that cannot be read. *)
Definition file_event (root_dir : string) (e : Event) : Prop :=
  match e with
  | EvOpen p =>
      p ∈ os_rglob os (PurePath.parse root_dir) ∧ excluded p = false
  | EvWarn p =>
      p ∈ os_rglob os (PurePath.parse root_dir) ∧ excluded p = false
      ∧ os_read os p = None
  | _ => True
  end.

(** The record [e] with its link replaced. *)
Definition relink (link : string) (e : ErrorRecord) : ErrorRecord :=
  mkError (err_file e) link (err_expected e) (err_type e).

End Verdicts.

(** A tree without a broken link. *)
Definition sound_tree : list (Path * option string) :=
  [ (PurePath.parse "/repo/README.md",
     Some "[guide](docs/guide.md#start) and [site](https://example.com)");
    (PurePath.parse "/repo/docs/guide.md", Some "[back](../README.md)") ].

Definition at_root_sound : OS :=
  LexFS.to_OS (LexFS.mkFS (PurePath.parse "/repo") sound_tree).

(** * Properties *)

(** ** Strings *)

Lemma app_cons_str (c : ascii) (s t : string) :
  String c s +:+ t = String c (s +:+ t).
Proof. reflexivity. Qed.

Lemma app_assoc_str (a b c : string) : (a +:+ b) +:+ c = a +:+ b +:+ c.
Proof.
  induction a as [|x a IH]; [done|]. rewrite !app_cons_str. by f_equal.
Qed.

Lemma startswith_spec (s p : string) :
  Str.startswith s p = true ↔ ∃ r, s = p +:+ r.
Proof.
  revert s. induction p as [|c p IH]; intros s; simpl.
  - split; [intros _; by exists s | done].
  - destruct s as [|d s].
    + split; [done | intros [r Hr]; discriminate Hr].
    + destruct (Ascii.eqb_spec d c) as [->|Hne].
      * rewrite IH. split; intros [r Hr]; exists r.
        -- by rewrite app_cons_str, Hr.
        -- rewrite app_cons_str in Hr. by injection Hr.
      * split; [done | intros [r Hr]].
        rewrite app_cons_str in Hr. by injection Hr.
Qed.

Lemma contains_spec (s p : string) :
  Str.contains s p = true ↔ ∃ a b, s = a +:+ p +:+ b.
Proof.
  induction s as [|d s IH]; simpl.
  - rewrite orb_false_r, startswith_spec. split.
    + intros [r Hr]. by exists "", r.
    + intros [[|c a] [b Hb]]; [by exists b | discriminate Hb].
  - rewrite orb_true_iff, IH, startswith_spec. split.
    + intros [[r Hr]|(a & b & Hab)].
      * by exists "", r.
      * exists (String d a), b. by rewrite app_cons_str, Hab.
    + intros ([|c a] & b & Hab).
      * left. by exists b.
      * right. exists a, b. rewrite app_cons_str in Hab. by injection Hab.
Qed.

Lemma contains_trans (s p q : string) :
  Str.contains s p = true → Str.contains p q = true → Str.contains s q = true.
Proof.
  rewrite !contains_spec. intros (a & b & ->) (c & d & ->).
  exists (a +:+ c), (d +:+ b). by rewrite !app_assoc_str.
Qed.

Lemma split_nonempty (sep : ascii) (s : string) : Str.split sep s ≠ [].
Proof.
  destruct s as [|c s]; simpl; [done|].
  destruct (Ascii.eqb c sep); [done|]. by destruct (Str.split sep s).
Qed.

(** The anchor-stripped link is empty only for the empty link and for a
    link that starts with the anchor sign. *)
Lemma strip_anchor_empty (s : string) :
  Str.strip_anchor s = "" ↔ s = "" ∨ Str.startswith s "#" = true.
Proof.
  unfold Str.strip_anchor. destruct s as [|c s]; simpl; [by split; auto|].
  destruct (Ascii.eqb c "#") eqn:E; simpl; [by split; auto|].
  destruct (Str.split "#" s); simpl; (split; [done | by intros [?|?]]).
Qed.

Lemma strip_anchor_no_hash (s : string) :
  Str.split "#" (Str.strip_anchor s) = [Str.strip_anchor s].
Proof.
  unfold Str.strip_anchor. induction s as [|c s IH]; simpl; [done|].
  destruct (Ascii.eqb c "#") eqn:E; simpl; [done|].
  pose proof (split_nonempty "#" s) as Hne.
  destruct (Str.split "#" s) as [|h t]; [done|]. simpl in *.
  by rewrite E, IH.
Qed.

Lemma strip_anchor_idemp (s : string) :
  Str.strip_anchor (Str.strip_anchor s) = Str.strip_anchor s.
Proof.
  unfold Str.strip_anchor at 1. by rewrite strip_anchor_no_hash.
Qed.

Lemma lstrip_not_startswith (c : ascii) (s : string) :
  Str.startswith (Str.lstrip c s) (String c "") = false.
Proof.
  induction s as [|d s IH]; simpl; [done|].
  destruct (Ascii.eqb d c) eqn:E; [done|]. simpl. by rewrite E.
Qed.

Lemma segments_lstrip (s : string) :
  PurePath.segments (Str.lstrip "/" s) = PurePath.segments s.
Proof.
  unfold PurePath.segments. induction s as [|d s IH]; simpl; [done|].
  destruct (Ascii.eqb d "/") eqn:E; [|by simpl; rewrite E].
  rewrite IH. by rewrite filter_cons_False by (by intros [? _]).
Qed.

(** ** Computations *)

Lemma value_bind {A B} (m : M A) (f : A → M B) :
  value (m ≫= f) = value m ≫= (λ a, value (f a)).
Proof.
  destruct m as [[a|] t]; [|done]. unfold value, mbind, M_bind; simpl.
  by destruct (f a).
Qed.

Lemma events_bind {A B} (m : M A) (f : A → M B) :
  events (m ≫= f)
  = events m ++ match value m with Some a => events (f a) | None => [] end.
Proof.
  destruct m as [[a|] t]; unfold events, value, mbind, M_bind; simpl.
  - by destruct (f a).
  - by rewrite app_nil_r.
Qed.

Lemma value_for_each_cons {A S} (body : A → S → M S) x l s :
  value (for_each body (x :: l) s)
  = value (body x s) ≫= (λ s', value (for_each body l s')).
Proof. simpl. apply value_bind. Qed.

(** A property of the loop state that every iteration keeps holds after the
    loop. *)
Lemma for_each_invariant {A S} (P : S → Prop) (body : A → S → M S) l s s' :
  (∀ x s1 s2, x ∈ l → P s1 → value (body x s1) = Some s2 → P s2) →
  P s → value (for_each body l s) = Some s' → P s'.
Proof.
  revert s. induction l as [|x l IH]; intros s Hstep Hs Hrun.
  - simpl in Hrun. by injection Hrun as <-.
  - rewrite value_for_each_cons in Hrun.
    destruct (value (body x s)) as [s1|] eqn:E; [|done]. simpl in Hrun.
    apply (IH s1); [|by eapply Hstep; [left| |]|done].
    intros y s2 s3 Hy. apply Hstep. by right.
Qed.

(** A property of events that every iteration keeps holds of the events of
    the loop. *)
Lemma for_each_events {A S} (Q : Event → Prop) (body : A → S → M S) l s :
  (∀ x s1, x ∈ l → Forall Q (events (body x s1))) →
  Forall Q (events (for_each body l s)).
Proof.
  revert s. induction l as [|x l IH]; intros s Hstep; simpl.
  - constructor.
  - rewrite events_bind. apply Forall_app. split.
    + apply Hstep. by left.
    + destruct (value (body x s)); [|constructor].
      apply IH. intros y s1 Hy. apply Hstep. by right.
Qed.

(** ** Path safety *)

Section Safety.

Context (os : OS) (REPO_ROOT : Path).

Local Abbreviation path_safe := (path_safe os REPO_ROOT).
Local Abbreviation regular_target := (regular_target os REPO_ROOT).
Local Abbreviation safe_probe := (safe_probe os REPO_ROOT).
Local Abbreviation link_event := (link_event os REPO_ROOT).

Lemma resolve_only_link_event (l : list Event) :
  Forall resolve_only l → Forall link_event l.
Proof. intros H. eapply Forall_impl; [exact H|]. by intros []. Qed.

Lemma resolve_only_not_probe (l : list Event) :
  Forall resolve_only l → Forall not_probe l.
Proof. intros H. eapply Forall_impl; [exact H|]. by intros []. Qed.

Lemma link_event_safe_probe (l : list Event) :
  Forall link_event l → Forall safe_probe l.
Proof. intros H. eapply Forall_impl; [exact H|]. by intros []. Qed.

Lemma is_path_safe_value (t : Path) :
  value (is_path_safe os REPO_ROOT t) = Some (path_safe t).
Proof.
  unfold is_path_safe, path_safe, resolve, try_except, value.
  unfold mbind, M_bind, mret, M_ret.
  by destruct (os_resolve os t), (os_resolve os REPO_ROOT).
Qed.

Lemma is_path_safe_events (t : Path) :
  Forall resolve_only (events (is_path_safe os REPO_ROOT t)).
Proof.
  unfold is_path_safe, resolve, try_except, events.
  unfold mbind, M_bind, mret, M_ret.
  destruct (os_resolve os t), (os_resolve os REPO_ROOT); simpl;
    repeat constructor.
Qed.

Lemma resolve_target_path_value (link : string) (file_path : Path) :
  value (resolve_target_path os REPO_ROOT link file_path)
  = t ← regular_target (Str.strip_anchor link) file_path;
    Some (if path_safe t then Some t else None).
Proof.
  unfold resolve_target_path, regular_target.
  rewrite value_bind.
  destruct (Str.startswith (Str.strip_anchor link) "/"); simpl.
  - rewrite value_bind, is_path_safe_value. simpl.
    by destruct (path_safe _).
  - destruct (os_resolve os _) as [t|]; [|done]. simpl.
    rewrite value_bind, is_path_safe_value. simpl.
    by destruct (path_safe _).
Qed.

Lemma resolve_target_path_events (link : string) (file_path : Path) :
  Forall resolve_only (events (resolve_target_path os REPO_ROOT link file_path)).
Proof.
  unfold resolve_target_path. rewrite events_bind. apply Forall_app. split.
  - destruct (Str.startswith _ _); repeat constructor.
  - destruct (value _) as [t|]; [|constructor].
    rewrite events_bind. apply Forall_app. split.
    + apply is_path_safe_events.
    + rewrite is_path_safe_value. destruct (path_safe t); constructor.
Qed.

Lemma check_wiki_style_link_value (link : string) (file_path : Path) :
  value (check_wiki_style_link os REPO_ROOT link file_path)
  = Some (path_safe (PurePath.parent file_path // (link +:+ ".md"))
          && os_exists os (PurePath.parent file_path // (link +:+ ".md"))).
Proof.
  unfold check_wiki_style_link. rewrite value_bind, is_path_safe_value.
  simpl. by destruct (path_safe _).
Qed.

Lemma check_wiki_style_link_events (link : string) (file_path : Path) :
  Forall link_event
    (events (check_wiki_style_link os REPO_ROOT link file_path)).
Proof.
  unfold check_wiki_style_link. rewrite events_bind. apply Forall_app. split.
  - apply resolve_only_link_event, is_path_safe_events.
  - rewrite is_path_safe_value.
    destruct (path_safe _) eqn:E; simpl; repeat constructor. exact E.
Qed.

(** The five ways in which [check_link] leaves the loop state: untouched
    by one of the skips, or with the key added and at most one record
    appended. *)
Lemma check_link_cases (md_file : Path) (link : string) (st st' : ScanState) :
  value (check_link os REPO_ROOT md_file link st) = Some st' →
  st' = st
  ∨ (is_external_link link = false ∧ is_anchor_only link = false
     ∧ has_liquid_template link = false ∧ Str.strip_anchor link ≠ ""
     ∧ (check_key md_file link ∉ checked st)
     ∧ (st' = add_checked (check_key md_file link) st
        ∨ ∃ expected type,
            st' = append_error
                    (mkError (PurePath.str md_file) link expected type)
                    (add_checked (check_key md_file link) st))).
Proof.
  unfold check_link.
  destruct (is_external_link link); [intros [= <-]; by left|].
  destruct (is_anchor_only link); [intros [= <-]; by left|].
  destruct (has_liquid_template link); [intros [= <-]; by left|].
  destruct (decide (Str.strip_anchor link = "")); [intros [= <-]; by left|].
  destruct (decide (check_key md_file link ∈ checked st));
    [intros [= <-]; by left|].
  cbv zeta. destruct (is_wiki_style_link _ _).
  - rewrite value_bind, check_wiki_style_link_value. simpl.
    destruct (_ && _); simpl; intros [= <-]; right; eauto 10.
  - rewrite value_bind.
    destruct (value (resolve_target_path _ _ _ _)) as [[t|]|]; simpl;
      [| |done].
    + destruct (os_exists os t); simpl; intros [= <-]; right; eauto 10.
    + intros [= <-]; right; eauto 10.
Qed.

Lemma check_link_events (md_file : Path) (link : string) (st : ScanState) :
  Forall link_event (events (check_link os REPO_ROOT md_file link st)).
Proof.
  unfold check_link.
  destruct (is_external_link link); [constructor|].
  destruct (is_anchor_only link); [constructor|].
  destruct (has_liquid_template link); [constructor|].
  destruct (decide (Str.strip_anchor link = "")); [constructor|].
  destruct (decide (check_key md_file link ∈ checked st)); [constructor|].
  cbv zeta. destruct (is_wiki_style_link _ _).
  - rewrite events_bind. apply Forall_app. split.
    + apply check_wiki_style_link_events.
    + rewrite check_wiki_style_link_value. by destruct (_ && _).
  - rewrite events_bind. apply Forall_app. split.
    + apply resolve_only_link_event, resolve_target_path_events.
    + rewrite resolve_target_path_value.
      destruct (regular_target _ _) as [t|]; simpl; [|constructor].
      destruct (path_safe t) eqn:E; [|constructor].
      destruct (os_exists os t); simpl; repeat constructor; exact E.
Qed.

End Safety.

(** ** Files and whole runs *)

Section Runs.

Context (os : OS) (REPO_ROOT : Path).


Lemma check_file_excluded (md_file : Path) (st : ScanState) :
  excluded md_file = true → check_file os REPO_ROOT md_file st = (Some st, []).
Proof.
  unfold excluded, check_file.
  destruct (Str.contains _ "node_modules"), (Str.contains _ ".git"),
    (Str.contains _ "docs/audit"); done.
Qed.

Lemma check_file_unreadable (md_file : Path) (st : ScanState) :
  excluded md_file = false → os_read os md_file = None →
  check_file os REPO_ROOT md_file st = (Some st, [EvOpen md_file; EvWarn md_file]).
Proof.
  unfold excluded, check_file.
  destruct (Str.contains _ "node_modules"), (Str.contains _ ".git"),
    (Str.contains _ "docs/audit"); try done. simpl. intros _ Hread.
  unfold read_text, try_except, fmap, M_fmap. simpl. by rewrite Hread.
Qed.

Lemma check_file_readable (md_file : Path) (st : ScanState) content :
  excluded md_file = false → os_read os md_file = Some content →
  check_file os REPO_ROOT md_file st
  = (value (for_each (λ '(text, link) st, check_link os REPO_ROOT md_file link st)
              (find_markdown_links content) st),
     EvOpen md_file
     :: events (for_each (λ '(text, link) st, check_link os REPO_ROOT md_file link st)
                  (find_markdown_links content) st)).
Proof.
  unfold excluded, check_file.
  destruct (Str.contains _ "node_modules"), (Str.contains _ ".git"),
    (Str.contains _ "docs/audit"); try done. simpl. intros _ Hread.
  unfold read_text, try_except, fmap, M_fmap. simpl. rewrite Hread. simpl.
  unfold mbind, M_bind. by destruct (for_each _ _ _).
Qed.

(** A property of the loop state that checking one link keeps holds for
    the state after a file. *)
Lemma check_file_invariant (P : ScanState → Prop) md_file st st' :
  (∀ link s1 s2, P s1 → value (check_link os REPO_ROOT md_file link s1) = Some s2 → P s2) →
  P st → value (check_file os REPO_ROOT md_file st) = Some st' → P st'.
Proof.
  intros Hstep Hst.
  destruct (excluded md_file) eqn:Hex.
  { rewrite check_file_excluded by done. by intros [= <-]. }
  destruct (os_read os md_file) as [content|] eqn:Hread.
  - rewrite (check_file_readable _ _ content) by done. simpl.
    apply for_each_invariant; [|done].
    intros [text link] s1 s2 _. apply Hstep.
  - rewrite check_file_unreadable by done. by intros [= <-].
Qed.

Lemma check_links_value (root_dir : string) (errs : list ErrorRecord) :
  value (check_links os REPO_ROOT root_dir) = Some errs ↔
  ∃ st, value (for_each (check_file os REPO_ROOT) (os_rglob os (PurePath.parse root_dir))
                 (mkScan [] ∅)) = Some st
        ∧ errs = errors st.
Proof.
  unfold check_links. rewrite value_bind. simpl.
  rewrite value_bind.
  destruct (value (for_each _ _ _)) as [st|]; simpl.
  - split; [intros [= <-]; eauto | by intros (? & [= <-] & ->)].
  - split; [done | by intros (? & ? & _)].
Qed.

(** A property of the loop state that checking one link keeps holds for
    the state a run ends with. *)
Lemma check_links_invariant (P : ScanState → Prop) root_dir errs :
  (∀ md_file link s1 s2,
     md_file ∈ os_rglob os (PurePath.parse root_dir) →
     P s1 → value (check_link os REPO_ROOT md_file link s1) = Some s2 → P s2) →
  P (mkScan [] ∅) →
  value (check_links os REPO_ROOT root_dir) = Some errs →
  ∃ st, P st ∧ errs = errors st.
Proof.
  intros Hstep Hinit (st & Hrun & ->)%check_links_value.
  exists st. split; [|done].
  revert Hrun. apply for_each_invariant; [|done].
  intros md_file s1 s2 Hfile Hs1. apply check_file_invariant; [|done].
  intros link s3 s4. by apply Hstep.
Qed.

Lemma check_file_events (Q : Event → Prop) (md_file : Path) (st : ScanState) :
  (∀ link s, Forall Q (events (check_link os REPO_ROOT md_file link s))) →
  (excluded md_file = false → Q (EvOpen md_file) ∧ Q (EvWarn md_file)) →
  Forall Q (events (check_file os REPO_ROOT md_file st)).
Proof.
  intros Hstep HQ.
  destruct (excluded md_file) eqn:Hex.
  { rewrite check_file_excluded by done. constructor. }
  destruct HQ as [Hopen Hwarn]; [done|].
  destruct (os_read os md_file) as [content|] eqn:Hread.
  - rewrite (check_file_readable _ _ content) by done. simpl.
    constructor; [done|]. apply for_each_events.
    intros [text link] s1 _. apply Hstep.
  - rewrite check_file_unreadable by done. by repeat constructor.
Qed.

(** No run asks whether an unsafe path exists. *)
Lemma check_links_events_safe (root_dir : string) :
  Forall (safe_probe os REPO_ROOT) (events (check_links os REPO_ROOT root_dir)).
Proof.
  unfold check_links. rewrite events_bind. simpl.
  constructor; [done|]. rewrite events_bind. apply Forall_app. split; [|by destruct (value _)].
  apply for_each_events. intros md_file st _.
  apply check_file_events; [|done].
  intros link s. apply link_event_safe_probe, check_link_events.
Qed.

End Runs.

(** ** Link extraction *)

Lemma span_until_length (c : ascii) (s a r : string) :
  span_until c s = Some (a, r) → (String.length r < String.length s)%nat.
Proof.
  revert a. induction s as [|d s IH]; intros a; simpl; [done|].
  destruct (Ascii.eqb d c).
  - intros [= _ <-]. lia.
  - destruct (span_until c s) as [[a' r']|]; [|done].
    intros [= _ <-]. specialize (IH a' eq_refl). lia.
Qed.

Lemma match_link_inv (s text url rest : string) :
  match_link s = Some (text, url, rest) →
  url ≠ "" ∧ (String.length rest < String.length s)%nat.
Proof.
  unfold match_link.
  destruct s as [|c s1]; [done|].
  destruct (decide (c = "["%char)) as [->|Hc]; cycle 1.
  { destruct c as [[] [] [] [] [] [] [] []]; done. }
  destruct (span_until "]" s1) as [[t r1]|] eqn:E1; [|done].
  destruct r1 as [|c s2]; [done|].
  destruct (decide (c = "("%char)) as [->|Hc]; cycle 1.
  { destruct c as [[] [] [] [] [] [] [] []]; done. }
  destruct (span_until ")" s2) as [[u r2]|] eqn:E2; [|done].
  destruct (decide (u = "")); [done|]. intros [= <- <- <-].
  split; [done|].
  apply span_until_length in E1, E2. simpl in *. lia.
Qed.

(** The fuel [find_markdown_links] starts with is enough: more fuel finds
    the same links. *)
Lemma scan_links_fuel (n : nat) (s : string) :
  (String.length s ≤ n)%nat → scan_links n s = find_markdown_links s.
Proof.
  unfold find_markdown_links.
  remember (String.length s) as k eqn:Hk.
  assert (Hle : (String.length s ≤ k)%nat) by lia. clear Hk.
  revert s n Hle. induction k as [|k IH]; intros s n Hs Hn.
  - destruct s; [|simpl in Hs; lia]. by destruct n.
  - destruct n as [|n]; [lia|]. simpl.
    destruct s as [|c s']; [done|].
    destruct (match_link (String c s')) as [[[text url] rest]|] eqn:E.
    + apply match_link_inv in E as [_ Hlen]. simpl in *.
      f_equal. apply IH; lia.
    + simpl in Hs. apply IH; lia.
Qed.

Lemma scan_links_url_nonempty (n : nat) (s text url : string) :
  (text, url) ∈ scan_links n s → url ≠ "".
Proof.
  revert s. induction n as [|n IH]; intros s; simpl; [by intros ?%elem_of_nil|].
  destruct s as [|c s']; [by intros ?%elem_of_nil|].
  destruct (match_link (String c s')) as [[[t u] rest]|] eqn:E; [|apply IH].
  intros [[= -> ->]|Hin]%elem_of_cons; [|by eapply IH].
  by apply match_link_inv in E as [? _].
Qed.

(** C9: every url that [find_markdown_links] returns is non-empty; its
    anchor-stripped part is empty only when the url starts with the anchor
    sign; so a link that got past the external, anchor-only and template
    skips of [check_links] never takes the skip for an empty anchor-stripped
    link. *)
Theorem extracted_link_never_empty_after_strip (content text url : string) :
  (text, url) ∈ find_markdown_links content →
  url ≠ ""
  ∧ (Str.strip_anchor url = "" → is_anchor_only url = true)
  ∧ (is_external_link url = false → is_anchor_only url = false →
     has_liquid_template url = false → Str.strip_anchor url ≠ "").
Proof.
  intros Hin%scan_links_url_nonempty.
  assert (Str.strip_anchor url = "" → is_anchor_only url = true) as Hanchor.
  { intros [?|?]%strip_anchor_empty; done. }
  split; [done|]. split; [done|].
  intros _ Hno _ Hempty. apply Hanchor in Hempty. congruence.
Qed.

Lemma extracted_link_never_empty_after_strip_witness :
  "./setup.md" ≠ ""
  ∧ (Str.strip_anchor "./setup.md" = "" → is_anchor_only "./setup.md" = true)
  ∧ (is_external_link "./setup.md" = false →
     is_anchor_only "./setup.md" = false →
     has_liquid_template "./setup.md" = false →
     Str.strip_anchor "./setup.md" ≠ "").
Proof.
  apply (extracted_link_never_empty_after_strip
           "See [setup](./setup.md)." "setup").
  vm_compute. left.
Defined.

(** ** Skipped links *)

Section Claims.

Context (os : OS) (REPO_ROOT : Path).

Lemma check_link_skipped (md_file : Path) (link : string) (st : ScanState) :
  is_external_link link || is_anchor_only link || has_liquid_template link
  = true →
  check_link os REPO_ROOT md_file link st = (Some st, []).
Proof.
  unfold check_link.
  by destruct (is_external_link link), (is_anchor_only link),
    (has_liquid_template link).
Qed.

(** C4: a link that is external, anchor-only or templated leaves the scan
    state as it is and causes no event, and no record of any run carries
    such a link. *)
Theorem skipped_links_never_reported (link : string) :
  is_external_link link || is_anchor_only link || has_liquid_template link
  = true →
  (∀ md_file st, check_link os REPO_ROOT md_file link st = (Some st, []))
  ∧ (∀ root_dir errs,
       value (check_links os REPO_ROOT root_dir) = Some errs →
       ∀ e, e ∈ errs → err_link e ≠ link).
Proof.
  intros Hskip. split; [intros; by apply check_link_skipped|].
  intros root_dir errs Hrun.
  apply (check_links_invariant os REPO_ROOT
           (λ st, ∀ e, e ∈ errors st → err_link e ≠ link)) in Hrun
    as (st & Hst & ->); [done| |by intros e ?%elem_of_nil].
  intros md_file l s1 s2 _ Hs1 Hstep e.
  apply check_link_cases in Hstep
    as [->|(He & Ha & Ht & _ & _ & [->|(ex & ty & ->)])];
    [apply Hs1..|].
  simpl. intros [?|Heq%list_elem_of_singleton]%elem_of_app; [by apply Hs1|].
  subst e. simpl. intros ->. rewrite He, Ha, Ht in Hskip. done.
Qed.

(** ** Deduplication *)

Lemma check_link_dedup (md_file : Path) (link : string) (s1 s2 : ScanState) :
  dedup_invariant s1 →
  value (check_link os REPO_ROOT md_file link s1) = Some s2 →
  dedup_invariant s2.
Proof.
  intros [Hnd Hin] Hstep.
  apply check_link_cases in Hstep
    as [->|(_ & _ & _ & _ & Hfresh & [->|(ex & ty & ->)])]; [done| |].
  - split; [done|]. simpl. intros e He. set_solver.
  - split; simpl.
    + rewrite fmap_app. apply NoDup_app. split; [done|]. split.
      * intros k (e & Hk & He)%list_elem_of_fmap Hk'. subst k.
        simpl in Hk'. apply list_elem_of_singleton in Hk'.
        apply Hfresh. apply Hin in He. rewrite Hk' in He. exact He.
      * apply NoDup_singleton.
    + intros e [?|Heq%list_elem_of_singleton]%elem_of_app; [set_solver|].
      subst e. unfold record_key, check_key. simpl. set_solver.
Qed.

(** C7: the records a run returns have pairwise distinct (file, link)
    pairs. *)
Theorem at_most_one_record_per_file_and_link
    (root_dir : string) (errs : list ErrorRecord) :
  value (check_links os REPO_ROOT root_dir) = Some errs →
  NoDup ((λ e, (err_file e, err_link e)) <$> errs).
Proof.
  intros Hrun.
  apply (check_links_invariant os REPO_ROOT dedup_invariant) in Hrun
    as (st & [Hnd _] & ->).
  - apply (NoDup_fmap_1 (λ p : string * string, p.1 +:+ ":" +:+ p.2)).
    by rewrite <- list_fmap_compose.
  - intros md_file link s1 s2 _. apply check_link_dedup.
  - split; [constructor | by intros e ?%elem_of_nil].
Qed.

(** ** Discovery *)

(** C10: a file is left out exactly when the string of its path has one of
    the three markers as a substring; a file left out is not opened and
    contributes nothing, any other file is opened; in particular every path
    with [.github] in it is left out. *)
Theorem exclusion_is_substring_matching (md_file : Path) :
  (excluded md_file = true ↔
     ∃ marker a b, marker ∈ ["node_modules"; ".git"; "docs/audit"]
                   ∧ PurePath.str md_file = a +:+ marker +:+ b)
  ∧ (∀ st, excluded md_file = true →
           check_file os REPO_ROOT md_file st = (Some st, []))
  ∧ (∀ st, excluded md_file = false →
           EvOpen md_file ∈ events (check_file os REPO_ROOT md_file st))
  ∧ (Str.contains (PurePath.str md_file) ".github" = true →
     excluded md_file = true).
Proof.
  split; [|split; [|split]].
  - unfold excluded. rewrite !orb_true_iff, !contains_spec. split.
    + intros [[(a & b & H)|(a & b & H)]|(a & b & H)];
        eexists _, a, b; (split; [|exact H]); set_solver.
    + intros (marker & a & b & Hm & H).
      repeat (apply elem_of_cons in Hm as [->|Hm]); [eauto..|].
      by apply elem_of_nil in Hm.
  - intros st. apply check_file_excluded.
  - intros st Hex.
    destruct (os_read os md_file) as [content|] eqn:Hread.
    + rewrite (check_file_readable _ _ _ _ content) by done. simpl. by left.
    + rewrite check_file_unreadable by done. simpl. by left.
  - intros H. unfold excluded.
    rewrite (contains_trans _ ".github" ".git" H eq_refl).
    by rewrite orb_true_r.
Qed.

End Claims.

(** ** Wiki-style and regular links *)

Lemma append_md_nonempty (s : string) : s +:+ ".md" ≠ "" ∧ s +:+ ".md" ≠ ".".
Proof.
  destruct s as [|c s]; [done|]. rewrite app_cons_str. split; [done|].
  destruct s; [|done]. by intros [= ->].
Qed.

Lemma split_without_sep (c : ascii) (s t : string) :
  Str.contains s (String c "") = false → Str.split c t = [t] →
  Str.split c (s +:+ t) = [s +:+ t].
Proof.
  intros Hs Ht. induction s as [|d s IH]; [done|].
  simpl in Hs. apply orb_false_iff in Hs as [Hd Hs].
  rewrite app_cons_str. simpl.
  destruct (Ascii.eqb d c); [done|]. by rewrite IH.
Qed.

(** The one segment a bare page name with the extension makes. *)
Lemma wiki_target_segments (clean_link : string) :
  Str.contains clean_link "/" = false →
  Str.startswith (clean_link +:+ ".md") "/" = false
  ∧ PurePath.segments (clean_link +:+ ".md") = [clean_link +:+ ".md"].
Proof.
  intros Hs. split.
  - destruct clean_link as [|d s]; [done|]. simpl in Hs.
    apply orb_false_iff in Hs as [Hd _]. rewrite app_cons_str. simpl.
    by destruct (Ascii.eqb d "/").
  - unfold PurePath.segments. rewrite (split_without_sep "/" _ ".md" Hs eq_refl).
    destruct (append_md_nonempty clean_link).
    by rewrite filter_cons_True, filter_nil.
Qed.

Section LinkSteps.

Context (os : OS) (REPO_ROOT : Path).

Lemma not_skipped_inv (link : string) :
  not_skipped link = true →
  is_external_link link = false ∧ is_anchor_only link = false
  ∧ has_liquid_template link = false ∧ Str.strip_anchor link ≠ "".
Proof.
  unfold not_skipped. rewrite !andb_true_iff, !negb_true_iff.
  intros [[[? ?] ?] ?%bool_decide_eq_false]. done.
Qed.

(** What [check_link] returns for a wiki-style link it has not seen. *)
Lemma check_link_wiki_value (md_file : Path) (link : string) (st : ScanState) :
  classified_wiki md_file link = true →
  check_key md_file link ∉ checked st →
  let target := PurePath.parent md_file // (Str.strip_anchor link +:+ ".md") in
  value (check_link os REPO_ROOT md_file link st)
  = Some (if path_safe os REPO_ROOT target && os_exists os target
          then add_checked (check_key md_file link) st
          else append_error
                 (mkError (PurePath.str md_file) link (PurePath.str target)
                    "wiki-style")
                 (add_checked (check_key md_file link) st)).
Proof.
  unfold classified_wiki. rewrite andb_true_iff.
  intros [(He & Ha & Ht & Hc)%not_skipped_inv Hw] Hfresh. simpl.
  unfold check_link. rewrite He, Ha, Ht.
  destruct (decide (Str.strip_anchor link = "")); [done|].
  destruct (decide (check_key md_file link ∈ checked st)); [done|].
  cbv zeta. rewrite Hw, value_bind, check_wiki_style_link_value. simpl.
  by destruct (_ && _).
Qed.

(** What [check_link] returns for a regular link it has not seen. *)
Lemma check_link_regular_value
    (md_file : Path) (link : string) (st : ScanState) :
  classified_regular md_file link = true →
  check_key md_file link ∉ checked st →
  value (check_link os REPO_ROOT md_file link st)
  = t ← regular_target os REPO_ROOT (Str.strip_anchor link) md_file;
    Some (if path_safe os REPO_ROOT t then
            if os_exists os t then add_checked (check_key md_file link) st
            else append_error
                   (mkError (PurePath.str md_file) link (PurePath.str t)
                      "regular")
                   (add_checked (check_key md_file link) st)
          else append_error
                 (mkError (PurePath.str md_file) link
                    "UNSAFE PATH (outside repository)" "security")
                 (add_checked (check_key md_file link) st)).
Proof.
  unfold classified_regular. rewrite andb_true_iff, negb_true_iff.
  intros [(He & Ha & Ht & Hc)%not_skipped_inv Hw] Hfresh.
  unfold check_link. rewrite He, Ha, Ht.
  destruct (decide (Str.strip_anchor link = "")); [done|].
  destruct (decide (check_key md_file link ∈ checked st)); [done|].
  cbv zeta. rewrite Hw, value_bind, resolve_target_path_value.
  rewrite strip_anchor_idemp.
  destruct (regular_target _ _ _ _) as [t|]; [|done]. simpl.
  destruct (path_safe _ _ t); [|done]. simpl.
  by destruct (os_exists os t).
Qed.

(** A link whose key is in [checked] changes nothing. *)
Lemma check_link_seen (md_file : Path) (link : string) (st : ScanState) :
  check_key md_file link ∈ checked st →
  check_link os REPO_ROOT md_file link st = (Some st, []).
Proof.
  intros Hseen. unfold check_link.
  destruct (is_external_link link); [done|].
  destruct (is_anchor_only link); [done|].
  destruct (has_liquid_template link); [done|].
  destruct (decide (Str.strip_anchor link = "")); [done|].
  by destruct (decide (check_key md_file link ∈ checked st)).
Qed.

(** The events of a regular link with an unsafe target: resolutions only. *)
Lemma check_link_unsafe_events
    (md_file : Path) (link : string) (st : ScanState) (t : Path) :
  classified_regular md_file link = true →
  regular_target os REPO_ROOT (Str.strip_anchor link) md_file = Some t →
  path_safe os REPO_ROOT t = false →
  Forall not_probe (events (check_link os REPO_ROOT md_file link st)).
Proof.
  unfold classified_regular. rewrite andb_true_iff, negb_true_iff.
  intros [(He & Ha & Ht & Hc)%not_skipped_inv Hw] Htarget Hunsafe.
  unfold check_link. rewrite He, Ha, Ht.
  destruct (decide (Str.strip_anchor link = "")); [done|].
  destruct (decide (check_key md_file link ∈ checked st)); [constructor|].
  cbv zeta. rewrite Hw, events_bind. apply Forall_app. split.
  - apply resolve_only_not_probe, resolve_target_path_events.
  - rewrite resolve_target_path_value, strip_anchor_idemp, Htarget. simpl.
    rewrite Hunsafe. constructor.
Qed.

End LinkSteps.

(** ** From one link to the list a run returns *)

Lemma filter_only {A} (P : A → Prop) `{!∀ x, Decision (P x)}
    (l : list A) (x : A) :
  NoDup l → x ∈ l → P x → (∀ y, y ∈ l → P y → y = x) → filter P l = [x].
Proof.
  induction l as [|y l IH]; intros Hnd Hx HP Huniq.
  { by apply elem_of_nil in Hx. }
  apply NoDup_cons in Hnd as [Hy Hnd]. rewrite filter_cons.
  destruct (decide (P y)) as [HPy|HPy].
  - assert (y = x) as -> by (apply Huniq; [by left|done]). f_equal.
    destruct (filter P l) as [|z k] eqn:E; [done|]. exfalso.
    assert (z ∈ filter P l) as [HPz Hz]%list_elem_of_filter
      by (rewrite E; by left).
    assert (z = x) as -> by (apply Huniq; [by right|done]). by apply Hy.
  - apply elem_of_cons in Hx as [->|Hx]; [done|].
    apply IH; [done..|]. intros z Hz. apply Huniq. by right.
Qed.

Lemma NoDup_fmap_elem_eq {A B} (f : A → B) (l : list A) (x y : A) :
  NoDup (f <$> l) → x ∈ l → y ∈ l → f x = f y → x = y.
Proof.
  induction l as [|z l IH]; [by intros _ ?%elem_of_nil|].
  rewrite fmap_cons, NoDup_cons.
  intros [Hz Hnd] [->|Hx]%elem_of_cons [->|Hy]%elem_of_cons Heq; auto.
  - exfalso. apply Hz. rewrite Heq. by apply list_elem_of_fmap_2.
  - exfalso. apply Hz. rewrite <- Heq. by apply list_elem_of_fmap_2.
Qed.

(** A loop that passes an element [x] ends in a state with [Q] when [P]
    holds before and is kept, the iteration for [x] leads from [P] to [Q],
    and [Q] is kept afterwards. *)
Lemma for_each_reaches {A S} (P Q : S → Prop) (body : A → S → M S) l s s' x :
  x ∈ l → P s → value (for_each body l s) = Some s' →
  (∀ y s1 s2, y ∈ l → P s1 → value (body y s1) = Some s2 → P s2) →
  (∀ s1 s2, P s1 → value (body x s1) = Some s2 → Q s2) →
  (∀ y s1 s2, y ∈ l → Q s1 → value (body y s1) = Some s2 → Q s2) →
  Q s'.
Proof.
  revert s. induction l as [|y l IH]; intros s Hx Hs Hrun HP HPQ HQ.
  { by apply elem_of_nil in Hx. }
  rewrite value_for_each_cons in Hrun.
  destruct (value (body y s)) as [s1|] eqn:E; [|done]. simpl in Hrun.
  apply elem_of_cons in Hx as [->|Hx].
  - revert Hrun. apply for_each_invariant; [|by eapply HPQ].
    intros z s2 s3 Hz. apply HQ. by right.
  - apply (IH s1); [done|by eapply HP; [left| |]|done| |done|].
    + intros z s2 s3 Hz. apply HP. by right.
    + intros z s2 s3 Hz. apply HQ. by right.
Qed.

Section Reported.

Context (os : OS) (REPO_ROOT : Path).

Lemma check_link_enters_key (md_file : Path) (link : string) (st st' : ScanState) :
  not_skipped link = true →
  value (check_link os REPO_ROOT md_file link st) = Some st' →
  check_key md_file link ∈ checked st'.
Proof.
  intros (He & Ha & Ht & Hc)%not_skipped_inv.
  unfold check_link. rewrite He, Ha, Ht.
  destruct (decide (Str.strip_anchor link = "")); [done|].
  destruct (decide (check_key md_file link ∈ checked st));
    [by intros [= <-]|].
  cbv zeta. destruct (is_wiki_style_link _ _).
  - rewrite value_bind, check_wiki_style_link_value. simpl.
    destruct (_ && _); simpl; intros [= <-]; simpl; set_solver.
  - rewrite value_bind.
    destruct (value (resolve_target_path _ _ _ _)) as [[t|]|]; simpl;
      [| |done].
    + destruct (os_exists os t); simpl; intros [= <-]; simpl; set_solver.
    + intros [= <-]; simpl; set_solver.
Qed.

Lemma check_link_grows (md_file : Path) (link : string) (st st' : ScanState) :
  value (check_link os REPO_ROOT md_file link st) = Some st' →
  checked st ⊆ checked st' ∧ errors st ⊆ errors st'.
Proof.
  intros Hrun. apply check_link_cases in Hrun
    as [->|(_ & _ & _ & _ & _ & [->|(ex & ty & ->)])]; simpl.
  - done.
  - split; [set_solver | done].
  - split; [set_solver | by apply list_subseteq_app_l].
Qed.

(** When the keys of the scanned files do not collide with the key of a
    link that is not skipped, the record its first check appends is in the
    list the run returns. *)
Lemma first_check_is_reported
    (root_dir : string) (errs : list ErrorRecord)
    (md_file : Path) (link : string) (rec : ErrorRecord) :
  value (check_links os REPO_ROOT root_dir) = Some errs →
  extracted_from os root_dir md_file link →
  key_unique os root_dir md_file link →
  not_skipped link = true →
  (∀ st st', check_key md_file link ∉ checked st →
             value (check_link os REPO_ROOT md_file link st) = Some st' →
             rec ∈ errors st') →
  rec ∈ errs.
Proof.
  intros (st & Hrun & ->)%check_links_value
    (Hfile & Hex & content & text & Hread & Hlink) Hinj Hns Hfirst.
  unfold key_unique in Hinj.
  set (key := check_key md_file link) in *.
  set (P := λ s : ScanState, key ∈ checked s → rec ∈ errors s).
  set (Q := λ s : ScanState, key ∈ checked s ∧ rec ∈ errors s).
  assert (HP : ∀ f l s1 s2, f ∈ os_rglob os (PurePath.parse root_dir) →
            P s1 → value (check_link os REPO_ROOT f l s1) = Some s2 → P s2).
  { intros f l s1 s2 Hf Hs1 Hstep Hkey.
    destruct (decide (check_key f l = key)) as [Heq|Hne].
    - destruct (Hinj f l Hf Heq) as [-> ->].
      destruct (decide (key ∈ checked s1)) as [Hseen|Hfresh].
      + rewrite check_link_seen in Hstep by done. injection Hstep as <-.
        by apply Hs1.
      + by eapply Hfirst.
    - pose proof (check_link_grows _ _ _ _ Hstep) as [_ Herr].
      apply Herr, Hs1.
      apply check_link_cases in Hstep
        as [->|(_ & _ & _ & _ & _ & [->|(ex & ty & ->)])]; [done|..];
        simpl in Hkey;
        by apply elem_of_union in Hkey as [Hk%elem_of_singleton|Hk]. }
  assert (HQ : ∀ f l s1 s2,
            Q s1 → value (check_link os REPO_ROOT f l s1) = Some s2 → Q s2).
  { intros f l s1 s2 [Hk Hr] Hstep.
    apply check_link_grows in Hstep as [Hc He]. split; [by apply Hc|].
    by apply He. }
  assert (Q st) as [_ ?]; [|done].
  refine (for_each_reaches P Q _ _ _ _ md_file Hfile _ Hrun _ _ _).
  - by intros ?%elem_of_empty.
  - intros f s1 s2 Hf Hs1. apply check_file_invariant; [|done].
    intros l s3 s4. by apply HP.
  - intros s1 s2 Hs1. rewrite (check_file_readable _ _ _ _ content) by done.
    simpl. intros Hlinks.
    refine (for_each_reaches P Q _ _ _ _ (text, link) Hlink Hs1 Hlinks _ _ _).
    + intros [t l] s3 s4 _. by apply HP.
    + intros s3 s4 Hs3 Hstep. split; [by eapply check_link_enters_key|].
      destruct (decide (key ∈ checked s3)) as [Hseen|Hfresh].
      * rewrite check_link_seen in Hstep by done. injection Hstep as <-.
        by apply Hs3.
      * by eapply Hfirst.
    + intros [t l] s3 s4 _. apply HQ.
  - intros f s1 s2 _ Hs1. apply check_file_invariant; [|done].
    intros l. apply HQ.
Qed.

(** For a regular link with an unsafe target that is the security record. *)
Lemma unsafe_link_is_reported
    (root_dir : string) (errs : list ErrorRecord)
    (md_file : Path) (link : string) (t : Path) :
  value (check_links os REPO_ROOT root_dir) = Some errs →
  extracted_from os root_dir md_file link →
  key_unique os root_dir md_file link →
  classified_regular md_file link = true →
  regular_target os REPO_ROOT (Str.strip_anchor link) md_file = Some t →
  path_safe os REPO_ROOT t = false →
  mkError (PurePath.str md_file) link "UNSAFE PATH (outside repository)"
    "security" ∈ errs.
Proof.
  intros Hrun Hfrom Hinj Hreg Htarget Hunsafe.
  eapply first_check_is_reported; try done.
  - unfold classified_regular in Hreg. by apply andb_true_iff in Hreg as [? _].
  - intros st st' Hfresh.
    rewrite check_link_regular_value, Htarget by done. simpl.
    rewrite Hunsafe. intros [= <-]. simpl. apply elem_of_app. right. by left.
Qed.

(** For a wiki-style link whose page does not exist that is the wiki-style
    record. *)
Lemma missing_wiki_page_is_reported
    (root_dir : string) (errs : list ErrorRecord)
    (md_file : Path) (link : string) :
  value (check_links os REPO_ROOT root_dir) = Some errs →
  extracted_from os root_dir md_file link →
  key_unique os root_dir md_file link →
  classified_wiki md_file link = true →
  os_exists os (PurePath.parent md_file // (Str.strip_anchor link +:+ ".md"))
  = false →
  mkError (PurePath.str md_file) link
    (PurePath.str (PurePath.parent md_file // (Str.strip_anchor link +:+ ".md")))
    "wiki-style" ∈ errs.
Proof.
  intros Hrun Hfrom Hinj Hwiki Hmissing.
  eapply first_check_is_reported; try done.
  - unfold classified_wiki in Hwiki. by apply andb_true_iff in Hwiki as [? _].
  - intros st st' Hfresh.
    rewrite check_link_wiki_value by done. cbv zeta.
    rewrite Hmissing, andb_false_r. intros [= <-]. simpl.
    apply elem_of_app. right. by left.
Qed.

(** A record of a run is the only record of the run for its file and link,
    and it occurs once. *)
Lemma record_for_file_and_link_is_alone
    (root_dir : string) (errs : list ErrorRecord) (record : ErrorRecord) :
  value (check_links os REPO_ROOT root_dir) = Some errs →
  record ∈ errs →
  filter (λ e, err_file e = err_file record ∧ err_link e = err_link record)
    errs
  = [record].
Proof.
  intros Hrun Hin.
  apply (check_links_invariant os REPO_ROOT dedup_invariant) in Hrun
    as (st & [Hnd _] & ->); cycle 1.
  { intros md_file link s1 s2 _. apply check_link_dedup. }
  { split; [constructor | by intros e ?%elem_of_nil]. }
  apply filter_only; [by eapply NoDup_fmap_1|done|done|].
  intros e He [Hfile Hlink].
  apply (NoDup_fmap_elem_eq record_key (errors st)); [done..|].
  unfold record_key. by rewrite Hfile, Hlink.
Qed.

(** A link whose first check appends nothing has no record in the list a
    run returns, when no other scanned file is written like its file. *)
Lemma quiet_check_is_never_reported
    (root_dir : string) (errs : list ErrorRecord)
    (md_file : Path) (link : string) :
  value (check_links os REPO_ROOT root_dir) = Some errs →
  str_unique os root_dir md_file →
  (∀ st st', check_key md_file link ∉ checked st →
             value (check_link os REPO_ROOT md_file link st) = Some st' →
             errors st' = errors st) →
  ∀ e, e ∈ errs →
       ¬ (err_file e = PurePath.str md_file ∧ err_link e = link).
Proof.
  intros Hrun Huniq Hquiet.
  apply (check_links_invariant os REPO_ROOT
           (λ st, ∀ e, e ∈ errors st →
                       ¬ (err_file e = PurePath.str md_file
                          ∧ err_link e = link))) in Hrun
    as (st & Hst & ->); [done| |by intros e ?%elem_of_nil].
  intros f l s1 s2 Hf Hs1 Hstep e.
  destruct (decide (check_key f l ∈ checked s1)) as [Hseen|Hfresh].
  { rewrite check_link_seen in Hstep by done. injection Hstep as <-.
    apply Hs1. }
  pose proof Hstep as Hcases.
  apply check_link_cases in Hcases
    as [->|(_ & _ & _ & _ & _ & [->|(ex & ty & ->)])]; [apply Hs1..|].
  simpl. intros [?|Heq%list_elem_of_singleton]%elem_of_app; [by apply Hs1|].
  subst e. simpl. intros [Hstr ->]. apply Huniq in Hstr as ->; [|done].
  apply Hquiet in Hstep; [|done]. simpl in Hstep.
  apply (f_equal length) in Hstep. rewrite length_app in Hstep.
  simpl in Hstep. lia.
Qed.

End Reported.

(** ** Wiki-style and regular links with unshared keys *)

Section LinkClaims.

Context (os : OS) (REPO_ROOT : Path).

(** X15: a regular link whose target is outside the repository root.  When
    it reaches classification (none of the skips applies and its key is new)
    [check_links] appends exactly one record, of type security with the fixed
    text as expected, and that step asks for no existence check; no run ever
    asks whether the target exists; and when the link occurs in a scanned
    file and its key is not the key of another pair, the list a run returns
    has that record exactly once and no other record for the file and the
    link. *)
Theorem unsafe_target_is_security_error_without_probe
    (md_file : Path) (link : string) (t : Path) :
  classified_regular md_file link = true →
  regular_target os REPO_ROOT (Str.strip_anchor link) md_file = Some t →
  path_safe os REPO_ROOT t = false →
  let record :=
    mkError (PurePath.str md_file) link
      "UNSAFE PATH (outside repository)" "security" in
  (∀ st, check_key md_file link ∉ checked st →
     (∃ st', value (check_link os REPO_ROOT md_file link st) = Some st'
             ∧ errors st' = errors st ++ [record])
     ∧ Forall not_probe (events (check_link os REPO_ROOT md_file link st)))
  ∧ (∀ root_dir, EvExists t ∉ events (check_links os REPO_ROOT root_dir))
  ∧ (∀ root_dir errs,
       value (check_links os REPO_ROOT root_dir) = Some errs →
       extracted_from os root_dir md_file link →
       key_unique os root_dir md_file link →
       filter (λ e, err_file e = PurePath.str md_file ∧ err_link e = link)
         errs
       = [record]).
Proof.
  intros Hreg Htarget Hunsafe record. split; [|split].
  - intros st Hfresh. split.
    + rewrite check_link_regular_value, Htarget by done. simpl.
      rewrite Hunsafe. eauto.
    + by eapply check_link_unsafe_events.
  - intros root_dir Hin.
    pose proof (check_links_events_safe os REPO_ROOT root_dir) as Hall.
    rewrite Forall_forall in Hall. apply Hall in Hin. simpl in Hin.
    congruence.
  - intros root_dir errs Hrun Hfrom Huniq.
    assert (record ∈ errs) as Hin by by eapply unsafe_link_is_reported.
    exact (record_for_file_and_link_is_alone os REPO_ROOT root_dir errs
             record Hrun Hin).
Qed.

(** X16: the target of a wiki-style link is the directory of the containing
    file with one more segment, the anchor-stripped link followed by the
    extension.  When the link reaches classification and that path is safe
    and exists no record is appended; when it does not exist one record of
    type wiki-style is appended whose expected text is that path.  The same
    holds of the list a run returns: no record for a page that exists (when
    no other scanned file is written like this one), the wiki-style record
    for a page that does not (when the link occurs in a scanned file and its
    key is not the key of another pair). *)
Theorem wiki_style_link_resolution (md_file : Path) (link : string) :
  classified_wiki md_file link = true →
  let target := PurePath.parent md_file // (Str.strip_anchor link +:+ ".md") in
  let record :=
    mkError (PurePath.str md_file) link (PurePath.str target) "wiki-style" in
  path_root target = path_root md_file
  ∧ path_tail target
    = path_tail (PurePath.parent md_file) ++ [Str.strip_anchor link +:+ ".md"]
  ∧ (∀ st, check_key md_file link ∉ checked st →
       ∃ st',
         value (check_link os REPO_ROOT md_file link st) = Some st'
         ∧ (path_safe os REPO_ROOT target = true →
            os_exists os target = true → errors st' = errors st)
         ∧ (os_exists os target = false → errors st' = errors st ++ [record]))
  ∧ (∀ root_dir errs,
       value (check_links os REPO_ROOT root_dir) = Some errs →
       (path_safe os REPO_ROOT target = true → os_exists os target = true →
        str_unique os root_dir md_file →
        ∀ e, e ∈ errs →
             ¬ (err_file e = PurePath.str md_file ∧ err_link e = link))
       ∧ (os_exists os target = false →
          extracted_from os root_dir md_file link →
          key_unique os root_dir md_file link →
          record ∈ errs)).
Proof.
  intros Hwiki target record.
  assert (Str.contains (Str.strip_anchor link) "/" = false) as Hslash.
  { unfold classified_wiki, is_wiki_style_link in Hwiki.
    rewrite !andb_true_iff, !negb_true_iff, strip_anchor_idemp in Hwiki.
    by destruct Hwiki as [_ [_ ?]]. }
  apply wiki_target_segments in Hslash as [Hrel Hseg].
  split; [|split; [|split]].
  - subst target. unfold PurePath.joinpath. by rewrite Hrel.
  - subst target. unfold PurePath.joinpath. by rewrite Hrel, Hseg.
  - intros st Hfresh. rewrite check_link_wiki_value by done.
    eexists. split; [done|]. fold target. split.
    + intros -> ->. done.
    + intros ->. by rewrite andb_false_r.
  - intros root_dir errs Hrun. split.
    + intros Hsafe Hexists Huniq.
      eapply quiet_check_is_never_reported; [done..|].
      intros st st' Hfresh. rewrite check_link_wiki_value by done.
      fold target. rewrite Hsafe, Hexists. by intros [= <-].
    + intros Hmissing Hfrom Huniq.
      by eapply missing_wiki_page_is_reported.
Qed.

(** X17: a regular link for which the path handed to [exists()] (the
    resolved path of a relative link, the repository root with [docs] and the
    url as written of a root-relative one) is inside the repository root and
    is found leaves the list of records as it is, and the list a run returns
    has no record for that file and link (when no other scanned file is
    written like this one). *)
Theorem existing_regular_target_no_error
    (md_file : Path) (link : string) (t : Path) :
  classified_regular md_file link = true →
  regular_target os REPO_ROOT (Str.strip_anchor link) md_file = Some t →
  path_safe os REPO_ROOT t = true →
  os_exists os t = true →
  (∀ st, ∃ st', value (check_link os REPO_ROOT md_file link st) = Some st'
               ∧ errors st' = errors st)
  ∧ (∀ root_dir errs,
       value (check_links os REPO_ROOT root_dir) = Some errs →
       str_unique os root_dir md_file →
       ∀ e, e ∈ errs →
            ¬ (err_file e = PurePath.str md_file ∧ err_link e = link)).
Proof.
  intros Hreg Htarget Hsafe Hexists.
  assert (∀ st st', check_key md_file link ∉ checked st →
            value (check_link os REPO_ROOT md_file link st) = Some st' →
            errors st' = errors st) as Hquiet.
  { intros st st' Hfresh.
    rewrite check_link_regular_value, Htarget by done. simpl.
    rewrite Hsafe, Hexists. by intros [= <-]. }
  split.
  - intros st.
    destruct (decide (check_key md_file link ∈ checked st)) as [Hseen|Hfresh].
    + rewrite check_link_seen by done. eauto.
    + rewrite check_link_regular_value, Htarget by done. simpl.
      rewrite Hsafe, Hexists. eauto.
  - intros root_dir errs Hrun Huniq.
    by eapply quiet_check_is_never_reported.
Qed.

(** C5: for a link whose anchor-stripped url starts with a slash the
    target is the repository root, then [docs], then the segments of the
    url, whatever file contains the link; [resolve_target_path] returns
    that path when it is safe and nothing otherwise. *)
Theorem root_relative_link_is_under_docs (link : string) (file_path : Path) :
  Str.startswith (Str.strip_anchor link) "/" = true →
  let target := REPO_ROOT // "docs" // Str.lstrip "/" (Str.strip_anchor link) in
  regular_target os REPO_ROOT (Str.strip_anchor link) file_path = Some target
  ∧ value (resolve_target_path os REPO_ROOT link file_path)
    = Some (if path_safe os REPO_ROOT target then Some target else None)
  ∧ path_root target = path_root REPO_ROOT
  ∧ path_tail target
    = path_tail REPO_ROOT ++ "docs"
      :: PurePath.segments (Str.strip_anchor link).
Proof.
  intros Habs target.
  assert (regular_target os REPO_ROOT (Str.strip_anchor link) file_path
          = Some target) as Htarget.
  { unfold regular_target. by rewrite Habs. }
  split; [done|]. split.
  - by rewrite resolve_target_path_value, Htarget.
  - subst target. unfold PurePath.joinpath at 1 3.
    rewrite lstrip_not_startswith, segments_lstrip. simpl.
    by rewrite <- app_assoc.
Qed.

End LinkClaims.

(** ** Exit status and unreadable files *)

Section ExitStatus.

Context (os : OS) (REPO_ROOT : Path).

Lemma main_value :
  value (main os REPO_ROOT)
  = errs ← value (check_links os REPO_ROOT default_root_dir);
    Some (if bool_decide (errs ≠ []) then 1 else 0).
Proof.
  unfold main. rewrite value_bind.
  destruct (value (check_links _ _ _)) as [errs|]; [|done]. simpl.
  by destruct (bool_decide _).
Qed.

(** Leaving the unreadable files out of the enumeration changes neither
    the records nor whether the scan returns. *)
Lemma for_each_file_drop_unreadable (files : list Path) (st : ScanState) :
  value (for_each (check_file os REPO_ROOT)
           (filter (λ p, is_Some (os_read os p)) files) st)
  = value (for_each (check_file os REPO_ROOT) files st).
Proof.
  revert st. induction files as [|f files IH]; intros st; [done|].
  rewrite filter_cons. destruct (decide (is_Some (os_read os f))) as [Hr|Hr].
  - rewrite !value_for_each_cons.
    destruct (value (check_file os REPO_ROOT f st)); [|done]. apply IH.
  - rewrite value_for_each_cons, IH.
    apply eq_None_not_Some in Hr.
    destruct (excluded f) eqn:Hex.
    + by rewrite check_file_excluded.
    + by rewrite check_file_unreadable.
Qed.

Lemma check_links_drop_unreadable (root_dir : string) :
  value (check_links (drop_unreadable os) REPO_ROOT root_dir)
  = value (check_links os REPO_ROOT root_dir).
Proof.
  unfold check_links. rewrite !value_bind. simpl. rewrite !value_bind.
  change (check_file (drop_unreadable os)) with (check_file os).
  by rewrite for_each_file_drop_unreadable.
Qed.

(** C8: when the scan returns, [main] returns status 0 exactly for an
    empty list and status 1 exactly for a non-empty one; a file that cannot
    be read is logged and leaves the scan state as it is, and a run without
    the unreadable files returns the same list and the same status. *)
Theorem exit_status_reflects_error_list (errs : list ErrorRecord) :
  value (check_links os REPO_ROOT default_root_dir) = Some errs →
  (∃ status, value (main os REPO_ROOT) = Some status
             ∧ (status = 0 ↔ errs = []) ∧ (status = 1 ↔ errs ≠ []))
  ∧ (∀ md_file st,
       excluded md_file = false → os_read os md_file = None →
       check_file os REPO_ROOT md_file st
       = (Some st, [EvOpen md_file; EvWarn md_file]))
  ∧ value (check_links (drop_unreadable os) REPO_ROOT default_root_dir)
    = Some errs
  ∧ value (main (drop_unreadable os) REPO_ROOT) = value (main os REPO_ROOT).
Proof.
  intros Hrun. split; [|split; [|split]].
  - rewrite main_value, Hrun. simpl. destruct errs as [|e errs].
    + exists 0. by rewrite bool_decide_eq_false_2 by naive_solver.
    + exists 1. by rewrite bool_decide_eq_true_2 by done.
  - intros md_file st. apply check_file_unreadable.
  - by rewrite check_links_drop_unreadable.
  - unfold main. rewrite !value_bind, check_links_drop_unreadable. done.
Qed.

(** ** The directory that is scanned *)



End ExitStatus.

(** ** The example tree *)

Module OnExampleTree.

Import Examples.

(** The examples of the specification in one run: the missing regular
    target, the wiki page that exists and the one that does not, the link
    that leaves the repository, the external link, and the files under
    [docs/audit] and [.github] that are not scanned. *)
Example scan_of_example_tree :
  value (check_links at_root repo_root default_root_dir) = Some report_at_root
  ∧ value (program at_root script) = Some 1.
Proof. split; vm_compute; reflexivity. Qed.

(** The conditions under which the theorems speak about the list a run
    returns hold in the example tree: the link of [docs/a.md] is extracted
    from a scanned file, no other pair has its key, and no other scanned
    file is written like [docs/a.md]. *)
Lemma scanned_files :
  os_rglob at_root (PurePath.parse default_root_dir)
  = PurePath.parse <$>
      ["README.md"; "docs/guide.md"; "docs/a.md"; "docs/wiki/Home.md";
       "docs/wiki/OtherPage.md"; "docs/audit/old.md";
       ".github/CONTRIBUTING.md"; "docs/locked.md"].
Proof. vm_compute; reflexivity. Qed.

Example conditions_hold_in_example_tree :
  extracted_from at_root default_root_dir (PurePath.parse "docs/a.md")
    "../../../../etc/passwd"
  ∧ key_unique at_root default_root_dir (PurePath.parse "docs/a.md")
      "../../../../etc/passwd"
  ∧ str_unique at_root default_root_dir (PurePath.parse "docs/a.md").
Proof.
  split; [|split].
  - split; [|split; [reflexivity|]].
    + rewrite scanned_files. apply (bool_decide_unpack _). vm_compute. exact I.
    + exists "[up](../../../../etc/passwd)", "up". split; [reflexivity|].
      vm_compute. left.
  - intros f l Hf Heq. rewrite scanned_files in Hf.
    repeat (apply elem_of_cons in Hf as [->|Hf]);
      [vm_compute in Heq; by simplify_eq..|by apply elem_of_nil in Hf].
  - intros f Hf Heq. rewrite scanned_files in Hf.
    repeat (apply elem_of_cons in Hf as [->|Hf]);
      [vm_compute in Heq; by simplify_eq..|by apply elem_of_nil in Hf].
Qed.

(** C1, where the code falls short of it.  The key of a check is the path,
    a colon and the link, so a colon in a file name lets two different pairs
    share a key.  Here [docs/a.md:b.md] is scanned, its link is extracted and
    is regular, and its target [/etc/passwd] is outside the repository root;
    but the key was entered for the link of [docs/a.md], the link counts as
    a repetition, and the list the scan returns has the record of
    [docs/a.md] only: no security record for [docs/a.md:b.md]. *)
Theorem key_collision_hides_unsafe_link :
  let md_file := PurePath.parse "docs/a.md:b.md" in
  let link := "../../../../etc/passwd" in
  extracted_from with_collision default_root_dir md_file link
  ∧ classified_regular md_file link = true
  ∧ regular_target with_collision repo_root (Str.strip_anchor link) md_file
    = Some (PurePath.parse "/etc/passwd")
  ∧ path_safe with_collision repo_root (PurePath.parse "/etc/passwd") = false
  ∧ check_key (PurePath.parse "docs/a.md") "b.md:../../../../etc/passwd"
    = check_key md_file link
  ∧ value (check_links with_collision repo_root default_root_dir)
    = Some [mkError "docs/a.md" "b.md:../../../../etc/passwd"
              "UNSAFE PATH (outside repository)" "security"].
Proof.
  repeat split; try (vm_compute; reflexivity).
  - apply (bool_decide_unpack _). vm_compute. exact I.
  - exists "[y](../../../../etc/passwd)", "y". split; [reflexivity|].
    vm_compute. left.
Qed.

(** C3, where the code falls short of it, by the same collision of keys.
    [docs/wiki/a.md:b.md] is scanned, its link [Nope] is extracted and is
    wiki-style, and the page [docs/wiki/Nope.md] does not exist; but the key
    was entered for the link of [docs/wiki/a.md], and the list the scan
    returns has the record of [docs/wiki/a.md] only: no wiki-style record for
    the missing page. *)
Theorem key_collision_hides_missing_wiki_page :
  let md_file := PurePath.parse "docs/wiki/a.md:b.md" in
  let link := "Nope" in
  let target := PurePath.parent md_file // (Str.strip_anchor link +:+ ".md") in
  extracted_from with_wiki_collision default_root_dir md_file link
  ∧ classified_wiki md_file link = true
  ∧ PurePath.str target = "docs/wiki/Nope.md"
  ∧ os_exists with_wiki_collision target = false
  ∧ check_key (PurePath.parse "docs/wiki/a.md") "b.md:Nope"
    = check_key md_file link
  ∧ value (check_links with_wiki_collision repo_root default_root_dir)
    = Some [mkError "docs/wiki/a.md" "b.md:Nope" "docs/wiki/b.md:Nope.md"
              "wiki-style"].
Proof.
  repeat split; try (vm_compute; reflexivity).
  - apply (bool_decide_unpack _). vm_compute. exact I.
  - exists "[y](Nope)", "y". split; [reflexivity|]. vm_compute. left.
Qed.

(** C6, where the code falls short of it.  For a link that starts with a
    slash [resolve_target_path] does not resolve the path it builds, as it
    does for a relative link, and [exists()] is asked about the path as it
    is written.  Here the link of [docs/index.md] is regular and its target
    resolves to [/repo/docs/guide.md], which is inside the repository root
    and exists; but the path as written goes through a directory that does
    not exist, [exists()] answers no, and the scan returns a record of type
    regular for the link. *)
Theorem unresolved_root_relative_target_is_reported :
  let md_file := PurePath.parse "docs/index.md" in
  let link := "/nonexistent/../guide.md" in
  let target := PurePath.parse "/repo/docs/nonexistent/../guide.md" in
  let resolved := PurePath.parse "/repo/docs/guide.md" in
  extracted_from with_detour default_root_dir md_file link
  ∧ classified_regular md_file link = true
  ∧ regular_target with_detour repo_root (Str.strip_anchor link) md_file
    = Some target
  ∧ os_resolve with_detour target = Some resolved
  ∧ path_safe with_detour repo_root target = true
  ∧ os_exists with_detour resolved = true
  ∧ os_exists with_detour target = false
  ∧ value (check_links with_detour repo_root default_root_dir)
    = Some [mkError "docs/index.md" link
              "/repo/docs/nonexistent/../guide.md" "regular"].
Proof.
  repeat split; try (vm_compute; reflexivity).
  - apply (bool_decide_unpack _). vm_compute. exact I.
  - exists "[guide](/nonexistent/../guide.md)", "guide".
    split; [reflexivity|]. vm_compute. left.
Qed.

Lemma unsafe_target_is_security_error_without_probe_witness :
  let md_file := PurePath.parse "docs/a.md" in
  let link := "../../../../etc/passwd" in
  let record :=
    mkError (PurePath.str md_file) link
      "UNSAFE PATH (outside repository)" "security" in
  (∀ st, check_key md_file link ∉ checked st →
     (∃ st', value (check_link at_root repo_root md_file link st) = Some st'
             ∧ errors st' = errors st ++ [record])
     ∧ Forall not_probe (events (check_link at_root repo_root md_file link st)))
  ∧ (∀ root_dir,
       EvExists (PurePath.parse "/etc/passwd")
       ∉ events (check_links at_root repo_root root_dir))
  ∧ (∀ root_dir errs,
       value (check_links at_root repo_root root_dir) = Some errs →
       extracted_from at_root root_dir md_file link →
       key_unique at_root root_dir md_file link →
       filter (λ e, err_file e = PurePath.str md_file ∧ err_link e = link)
         errs
       = [record]).
Proof.
  apply (unsafe_target_is_security_error_without_probe at_root repo_root
           (PurePath.parse "docs/a.md") "../../../../etc/passwd"
           (PurePath.parse "/etc/passwd"));
    vm_compute; reflexivity.
Defined.

Lemma wiki_style_link_resolution_witness :
  let link := "Nope#sec" in
  let target := PurePath.parent home // (Str.strip_anchor link +:+ ".md") in
  let record :=
    mkError (PurePath.str home) link (PurePath.str target) "wiki-style" in
  path_root target = path_root home
  ∧ path_tail target
    = path_tail (PurePath.parent home) ++ [Str.strip_anchor link +:+ ".md"]
  ∧ (∀ st, check_key home link ∉ checked st →
       ∃ st',
         value (check_link at_root repo_root home link st) = Some st'
         ∧ (path_safe at_root repo_root target = true →
            os_exists at_root target = true → errors st' = errors st)
         ∧ (os_exists at_root target = false →
            errors st' = errors st ++ [record]))
  ∧ (∀ root_dir errs,
       value (check_links at_root repo_root root_dir) = Some errs →
       (path_safe at_root repo_root target = true →
        os_exists at_root target = true →
        str_unique at_root root_dir home →
        ∀ e, e ∈ errs →
             ¬ (err_file e = PurePath.str home ∧ err_link e = link))
       ∧ (os_exists at_root target = false →
          extracted_from at_root root_dir home link →
          key_unique at_root root_dir home link →
          record ∈ errs)).
Proof.
  apply (wiki_style_link_resolution at_root repo_root home "Nope#sec").
  vm_compute; reflexivity.
Defined.

Lemma skipped_links_never_reported_witness :
  (∀ md_file st,
     check_link at_root repo_root md_file "https://example.com/docs" st
     = (Some st, []))
  ∧ (∀ root_dir errs,
       value (check_links at_root repo_root root_dir) = Some errs →
       ∀ e, e ∈ errs → err_link e ≠ "https://example.com/docs").
Proof.
  apply (skipped_links_never_reported at_root repo_root
           "https://example.com/docs").
  vm_compute; reflexivity.
Defined.

Lemma root_relative_link_is_under_docs_witness :
  let target :=
    repo_root // "docs" // Str.lstrip "/" (Str.strip_anchor "/guide.md#top") in
  regular_target at_root repo_root (Str.strip_anchor "/guide.md#top") guide
  = Some target
  ∧ value (resolve_target_path at_root repo_root "/guide.md#top" guide)
    = Some (if path_safe at_root repo_root target then Some target else None)
  ∧ path_root target = path_root repo_root
  ∧ path_tail target
    = path_tail repo_root ++ "docs"
      :: PurePath.segments (Str.strip_anchor "/guide.md#top").
Proof.
  apply (root_relative_link_is_under_docs at_root repo_root
           "/guide.md#top" guide).
  vm_compute; reflexivity.
Defined.

Lemma existing_regular_target_no_error_witness :
  (∀ st, ∃ st', value (check_link at_root repo_root guide "wiki/Home.md" st)
               = Some st'
               ∧ errors st' = errors st)
  ∧ (∀ root_dir errs,
       value (check_links at_root repo_root root_dir) = Some errs →
       str_unique at_root root_dir guide →
       ∀ e, e ∈ errs →
            ¬ (err_file e = PurePath.str guide ∧ err_link e = "wiki/Home.md")).
Proof.
  apply (existing_regular_target_no_error at_root repo_root guide
           "wiki/Home.md" (PurePath.parse "/repo/docs/wiki/Home.md"));
    vm_compute; reflexivity.
Defined.

Lemma at_most_one_record_per_file_and_link_witness :
  NoDup ((λ e, (err_file e, err_link e)) <$> report_at_root).
Proof.
  apply (at_most_one_record_per_file_and_link at_root repo_root
           default_root_dir report_at_root).
  vm_compute; reflexivity.
Defined.

Lemma exit_status_reflects_error_list_witness :
  (∃ status, value (main at_root repo_root) = Some status
             ∧ (status = 0 ↔ report_at_root = [])
             ∧ (status = 1 ↔ report_at_root ≠ []))
  ∧ (∀ md_file st,
       excluded md_file = false → os_read at_root md_file = None →
       check_file at_root repo_root md_file st
       = (Some st, [EvOpen md_file; EvWarn md_file]))
  ∧ value (check_links (drop_unreadable at_root) repo_root default_root_dir)
    = Some report_at_root
  ∧ value (main (drop_unreadable at_root) repo_root)
    = value (main at_root repo_root).
Proof.
  apply (exit_status_reflects_error_list at_root repo_root report_at_root).
  vm_compute; reflexivity.
Defined.


End OnExampleTree.

(** * Properties beyond the specification *)

(** ** Path safety is a prefix test *)

Lemma Path_eq (p q : Path) :
  p = q ↔ path_root p = path_root q ∧ path_tail p = path_tail q.
Proof.
  destruct p, q; simpl. split; [by intros [= -> ->] | by intros [-> ->]].
Qed.

Lemma parent_tail (p : Path) :
  path_tail (PurePath.parent p)
  = take (length (path_tail p) - 1) (path_tail p).
Proof.
  simpl. rewrite removelast_firstn_len. f_equal. lia.
Qed.

Lemma ancestors_spec (n : nat) (p q : Path) :
  (n ≤ length (path_tail p))%nat →
  q ∈ PurePath.ancestors n p ↔
  path_root q = path_root p
  ∧ ∃ i, (1 ≤ i ≤ n)%nat
         ∧ path_tail q = take (length (path_tail p) - i) (path_tail p).
Proof.
  revert p. induction n as [|n IH]; intros p Hn; simpl.
  { split; [by intros ?%elem_of_nil | intros (_ & i & ? & _); lia]. }
  rewrite elem_of_cons, IH by (rewrite parent_tail, length_take; lia).
  rewrite Path_eq, !parent_tail, length_take.
  change (path_root (PurePath.parent p)) with (path_root p).
  split.
  - intros [[Hr Ht]|(Hr & i & Hi & Ht)].
    + split; [done|]. exists 1%nat. split; [lia|done].
    + split; [done|]. exists (S i). split; [lia|].
      rewrite Ht, take_take. f_equal. lia.
  - intros (Hr & i & Hi & Ht).
    destruct (decide (i = 1%nat)) as [->|Hne]; [by left|].
    right. split; [done|]. exists (i - 1)%nat. split; [lia|].
    rewrite Ht, take_take. f_equal. lia.
Qed.

(** The resolved root is among the parents of a path exactly when both have
    the same root and the segments of the root are a proper prefix. *)
Lemma parents_spec (p q : Path) :
  q ∈ PurePath.parents p ↔
  path_root q = path_root p
  ∧ ∃ k, k ≠ [] ∧ path_tail p = path_tail q ++ k.
Proof.
  unfold PurePath.parents. rewrite ancestors_spec by done.
  split; intros (Hr & Hrest); (split; [done|]).
  - destruct Hrest as (i & Hi & Ht).
    exists (drop (length (path_tail p) - i) (path_tail p)). split.
    + intros Hnil%(f_equal length). rewrite length_drop in Hnil. simpl in Hnil.
      lia.
    + by rewrite Ht, take_drop.
  - destruct Hrest as (k & Hk & Ht).
    exists (length k). rewrite Ht, length_app. split.
    + destruct k; [done|]. simpl. lia.
    + replace (length (path_tail q) + length k - length k)%nat
        with (length (path_tail q)) by lia.
      by rewrite take_app_length.
Qed.

Section SafetyMore.

Context (os : OS) (REPO_ROOT : Path).

(** X1: [is_path_safe] answers [True] exactly when the target and the
    repository root both resolve, to paths with the same root, and the
    segments of the resolved root are a prefix of the segments of the
    resolved target: the comparison is by whole segments, not by
    characters. *)
Theorem is_path_safe_is_segment_prefix (target_path : Path) :
  value (is_path_safe os REPO_ROOT target_path) = Some true ↔
  ∃ resolved_target resolved_root,
    os_resolve os target_path = Some resolved_target
    ∧ os_resolve os REPO_ROOT = Some resolved_root
    ∧ path_root resolved_target = path_root resolved_root
    ∧ path_tail resolved_root `prefix_of` path_tail resolved_target.
Proof.
  rewrite is_path_safe_value. unfold path_safe.
  destruct (os_resolve os target_path) as [rt|]; cycle 1.
  { split; [done | by intros (? & ? & [=] & _)]. }
  destruct (os_resolve os REPO_ROOT) as [rr|]; cycle 1.
  { split; [done | by intros (? & ? & _ & [=] & _)]. }
  split.
  - intros [= [Heq%bool_decide_eq_true|Hin%bool_decide_eq_true]%orb_true_iff].
    + subst rr. exists rt, rt. by repeat split.
    + apply parents_spec in Hin as (Hr & k & _ & Ht).
      exists rt, rr. repeat split; [done|]. by exists k.
  - intros (rt' & rr' & [= <-] & [= <-] & Hr & k & Ht). f_equal.
    apply orb_true_iff. destruct k as [|x k].
    + left. apply bool_decide_eq_true, Path_eq.
      by rewrite Ht, app_nil_r.
    + right. apply bool_decide_eq_true, parents_spec. split; [done|].
      by exists (x :: k).
Qed.

End SafetyMore.

(** ** Link extraction, again *)

Lemma span_until_spec (c : ascii) (s a r : string) :
  span_until c s = Some (a, r) →
  s = a +:+ String c r ∧ Str.contains a (String c "") = false.
Proof.
  revert a. induction s as [|d s IH]; intros a; simpl; [done|].
  destruct (Ascii.eqb_spec d c) as [->|Hne].
  - by intros [= <- <-].
  - destruct (span_until c s) as [[a' r']|]; [|done].
    intros [= <- <-]. destruct (IH a' eq_refl) as [-> Hno].
    split; [done|]. simpl. rewrite Hno.
    apply Ascii.eqb_neq in Hne. rewrite Hne. by destruct a'.
Qed.

Lemma span_until_app (c : ascii) (a r : string) :
  Str.contains a (String c "") = false →
  span_until c (a +:+ String c r) = Some (a, r).
Proof.
  induction a as [|d a IH]; simpl.
  - intros _. by rewrite Ascii.eqb_refl.
  - intros [Hd Ha]%orb_false_iff. rewrite ?app_cons_str. simpl.
    destruct (Ascii.eqb d c); [done|]. by rewrite IH.
Qed.

Lemma markdown_link_app (text url rest : string) :
  markdown_link text url +:+ rest
  = String "[" (text +:+ String "]" (String "(" (url +:+ String ")" rest))).
Proof.
  unfold markdown_link.
  rewrite (app_assoc_str "[" _ rest), (app_assoc_str text _ rest).
  rewrite (app_assoc_str "](" _ rest), (app_assoc_str url ")" rest).
  reflexivity.
Qed.

Lemma match_link_spec (s text url rest : string) :
  match_link s = Some (text, url, rest) →
  s = markdown_link text url +:+ rest
  ∧ Str.contains text "]" = false ∧ Str.contains url ")" = false ∧ url ≠ "".
Proof.
  unfold match_link.
  destruct s as [|c s1]; [done|].
  destruct (decide (c = "["%char)) as [->|Hc]; cycle 1.
  { destruct c as [[] [] [] [] [] [] [] []]; done. }
  destruct (span_until "]" s1) as [[t r1]|] eqn:E1; [|done].
  destruct r1 as [|c s2]; [done|].
  destruct (decide (c = "("%char)) as [->|Hc]; cycle 1.
  { destruct c as [[] [] [] [] [] [] [] []]; done. }
  destruct (span_until ")" s2) as [[u r2]|] eqn:E2; [|done].
  destruct (decide (u = "")); [done|]. intros [= <- <- <-].
  apply span_until_spec in E1 as [-> Ht], E2 as [-> Hu].
  repeat split; [|done..]. by rewrite markdown_link_app.
Qed.

Lemma match_link_markdown_link (text url rest : string) :
  Str.contains text "]" = false → Str.contains url ")" = false → url ≠ "" →
  match_link (markdown_link text url +:+ rest) = Some (text, url, rest).
Proof.
  intros Ht Hu Hne. rewrite markdown_link_app. unfold match_link.
  rewrite span_until_app by done.
  rewrite span_until_app by done. by destruct (decide (url = "")).
Qed.

(** The recursion [find_markdown_links] follows, without the fuel. *)
Lemma find_markdown_links_unfold (c : ascii) (s : string) :
  find_markdown_links (String c s)
  = match match_link (String c s) with
    | Some (text, url, rest) => (text, url) :: find_markdown_links rest
    | None => find_markdown_links s
    end.
Proof.
  unfold find_markdown_links at 1. simpl String.length.
  cbn [scan_links].
  destruct (match_link (String c s)) as [[[text url] rest]|] eqn:E.
  - apply match_link_inv in E as [_ Hlen]. simpl in Hlen.
    f_equal. apply scan_links_fuel. lia.
  - done.
Qed.

(** X3: every pair that [find_markdown_links] returns is written in the
    content as a markdown link; its text holds no closing bracket and its
    url is not empty and holds no closing parenthesis. *)
Theorem extracted_links_occur_in_content (content text url : string) :
  (text, url) ∈ find_markdown_links content →
  (∃ before after, content = before +:+ markdown_link text url +:+ after)
  ∧ Str.contains text "]" = false
  ∧ Str.contains url ")" = false
  ∧ url ≠ "".
Proof.
  unfold find_markdown_links. generalize (String.length content) as n.
  intros n. revert content. induction n as [|n IH]; intros s; simpl.
  { by intros ?%elem_of_nil. }
  destruct s as [|c s']; [by intros ?%elem_of_nil|].
  destruct (match_link (String c s')) as [[[t u] rest]|] eqn:E.
  - apply match_link_spec in E as (Hs & Ht & Hu & Hne).
    intros [[= -> ->]|Hin]%elem_of_cons.
    + split; [|done]. by exists "", rest.
    + apply IH in Hin as [(before & after & ->) Hrest]. split; [|done].
      exists (markdown_link t u +:+ before), after.
      by rewrite Hs, !app_assoc_str.
  - intros Hin. apply IH in Hin as [(before & after & ->) Hrest].
    split; [|done]. by exists (String c before), after.
Qed.

Lemma find_markdown_links_skip (before rest : string) :
  Str.contains before "[" = false →
  (∀ c s, rest = String c s →
          find_markdown_links (before +:+ rest) = find_markdown_links rest).
Proof.
  intros Hb c s ->. induction before as [|d before IH]; [done|].
  simpl in Hb. apply orb_false_iff in Hb as [Hd Hb].
  rewrite app_cons_str, find_markdown_links_unfold.
  assert (match_link (String d (before +:+ String c s)) = None) as ->; [|auto].
  unfold match_link. destruct d as [[] [] [] [] [] [] [] []]; done.
Qed.

(** X4: a markdown link after a stretch without an opening bracket is the
    first pair that [find_markdown_links] returns, with the text and the url
    as they were written, and the search goes on behind the link. *)
Theorem markdown_link_is_extracted (before text url rest : string) :
  Str.contains before "[" = false →
  Str.contains text "]" = false →
  Str.contains url ")" = false →
  url ≠ "" →
  find_markdown_links (before +:+ markdown_link text url +:+ rest)
  = (text, url) :: find_markdown_links rest.
Proof.
  intros Hb Ht Hu Hne.
  pose proof (match_link_markdown_link text url rest Ht Hu Hne) as Hm.
  rewrite (find_markdown_links_skip before _ Hb _ _
             (markdown_link_app text url rest)).
  rewrite markdown_link_app in Hm |- *.
  by rewrite find_markdown_links_unfold, Hm.
Qed.

(** ** What a scan reports *)

Section Verdict.

Context (os : OS) (REPO_ROOT : Path).

Lemma check_link_not_skipped_false
    (md_file : Path) (link : string) (st : ScanState) :
  not_skipped link = false →
  check_link os REPO_ROOT md_file link st = (Some st, []).
Proof.
  unfold not_skipped, check_link.
  destruct (is_external_link link); [done|].
  destruct (is_anchor_only link); [done|].
  destruct (has_liquid_template link); [done|].
  destruct (decide (Str.strip_anchor link = "")); [done|].
  simpl. by rewrite bool_decide_eq_false_2.
Qed.

Lemma classified_cases (md_file : Path) (link : string) :
  not_skipped link = true →
  classified_wiki md_file link = true
  ∨ classified_regular md_file link = true.
Proof.
  unfold classified_wiki, classified_regular. intros ->. simpl.
  destruct (is_wiki_style_link _ _); auto.
Qed.

(** A property of the loop state that checking an extracted link keeps
    holds for the state a run ends with. *)
Lemma check_links_invariant_extracted (P : ScanState → Prop) root_dir errs :
  (∀ md_file link s1 s2,
     extracted_from os root_dir md_file link →
     P s1 → value (check_link os REPO_ROOT md_file link s1) = Some s2 → P s2) →
  P (mkScan [] ∅) →
  value (check_links os REPO_ROOT root_dir) = Some errs →
  ∃ st, P st ∧ errs = errors st.
Proof.
  intros Hstep Hinit (st & Hrun & ->)%check_links_value.
  exists st. split; [|done].
  revert Hrun. apply for_each_invariant; [|done].
  intros md_file s1 s2 Hfile Hs1.
  destruct (excluded md_file) eqn:Hex.
  { rewrite check_file_excluded by done. by intros [= <-]. }
  destruct (os_read os md_file) as [content|] eqn:Hread; cycle 1.
  { rewrite check_file_unreadable by done. by intros [= <-]. }
  rewrite (check_file_readable _ _ _ _ content) by done. simpl.
  apply for_each_invariant; [|done].
  intros [text link] s3 s4 Hlink. apply Hstep.
  split; [done|]. split; [done|]. by exists content, text.
Qed.

(** What a first check appends, with its reason. *)
Lemma check_link_appends_justified
    (md_file : Path) (link : string) (st st' : ScanState) :
  value (check_link os REPO_ROOT md_file link st) = Some st' →
  st' = st
  ∨ errors st' = errors st
  ∨ ∃ e, errors st' = errors st ++ [e]
         ∧ justified os REPO_ROOT md_file link e.
Proof.
  intros Hstep.
  destruct (not_skipped link) eqn:Hns; cycle 1.
  { rewrite check_link_not_skipped_false in Hstep by done.
    injection Hstep as <-. by left. }
  destruct (decide (check_key md_file link ∈ checked st)) as [Hseen|Hfresh].
  { rewrite check_link_seen in Hstep by done. injection Hstep as <-. by left. }
  right. unfold justified.
  destruct (classified_cases md_file link Hns) as [Hwiki|Hreg].
  - rewrite check_link_wiki_value in Hstep by done. cbv zeta in Hstep.
    destruct (_ && _) eqn:Hok; injection Hstep as <-; [by left|right].
    eexists. split; [done|]. simpl. do 2 (split; [done|]). left.
    split; [done|]. by eexists.
  - rewrite check_link_regular_value in Hstep by done.
    destruct (regular_target _ _ _ _) as [t|] eqn:Ht; [|done].
    simpl in Hstep.
    destruct (path_safe _ _ t) eqn:Hsafe;
      [destruct (os_exists os t) eqn:Hex|]; injection Hstep as <-;
      [by left|right..].
    + eexists. split; [done|]. simpl. do 2 (split; [done|]). right.
      split; [done|]. exists t. split; [done|]. by right.
    + eexists. split; [done|]. simpl. do 2 (split; [done|]). right.
      split; [done|]. exists t. split; [done|]. by left.
Qed.

(** X7: every record of the list a run returns has a reason in the tree:
    it names a file the scan read and a link extracted from it, and it is
    the wiki-style record of a page that is unsafe or missing, the security
    record of a target outside the repository root, or the regular record of
    a target inside it that does not exist. *)
Theorem every_record_is_justified
    (root_dir : string) (errs : list ErrorRecord) :
  value (check_links os REPO_ROOT root_dir) = Some errs →
  ∀ e, e ∈ errs →
       ∃ md_file link,
         extracted_from os root_dir md_file link
         ∧ justified os REPO_ROOT md_file link e.
Proof.
  intros Hrun.
  apply (check_links_invariant_extracted
           (λ st, ∀ e, e ∈ errors st →
                       ∃ md_file link,
                         extracted_from os root_dir md_file link
                         ∧ justified os REPO_ROOT md_file link e)) in Hrun
    as (st & Hst & ->); [done| |by intros e ?%elem_of_nil].
  intros md_file link s1 s2 Hfrom Hs1 Hstep e.
  apply check_link_appends_justified in Hstep
    as [->|[->|(e' & -> & Hjust)]]; [apply Hs1..|].
  intros [?|Heq%list_elem_of_singleton]%elem_of_app; [by apply Hs1|].
  subst e'. by exists md_file, link.
Qed.

(** X10: a regular link whose target is inside the repository root and
    does not exist.  Its first check appends exactly one record, of type
    regular with the string of the target as expected, after one existence
    check; and the list a run returns has that record when the link occurs
    in a scanned file and its key is not the key of another pair. *)
Theorem missing_regular_target_is_reported
    (md_file : Path) (link : string) (t : Path) :
  classified_regular md_file link = true →
  regular_target os REPO_ROOT (Str.strip_anchor link) md_file = Some t →
  path_safe os REPO_ROOT t = true →
  os_exists os t = false →
  let record :=
    mkError (PurePath.str md_file) link (PurePath.str t) "regular" in
  (∀ st, check_key md_file link ∉ checked st →
     (∃ st', value (check_link os REPO_ROOT md_file link st) = Some st'
             ∧ errors st' = errors st ++ [record])
     ∧ EvExists t ∈ events (check_link os REPO_ROOT md_file link st))
  ∧ (∀ root_dir errs,
       value (check_links os REPO_ROOT root_dir) = Some errs →
       extracted_from os root_dir md_file link →
       key_unique os root_dir md_file link →
       record ∈ errs).
Proof.
  intros Hreg Htarget Hsafe Hmissing record.
  assert (∀ st, check_key md_file link ∉ checked st →
            ∃ st', value (check_link os REPO_ROOT md_file link st) = Some st'
                   ∧ errors st' = errors st ++ [record]) as Hfirst.
  { intros st Hfresh. rewrite check_link_regular_value, Htarget by done.
    simpl. rewrite Hsafe, Hmissing. eauto. }
  split.
  - intros st Hfresh. split; [by apply Hfirst|].
    pose proof Hreg as Hreg'. unfold classified_regular in Hreg'.
    apply andb_true_iff in Hreg' as [(He & Ha & Ht & Hc)%not_skipped_inv Hw].
    apply negb_true_iff in Hw.
    unfold check_link. rewrite He, Ha, Ht.
    destruct (decide (Str.strip_anchor link = "")); [done|].
    destruct (decide (check_key md_file link ∈ checked st)); [done|].
    cbv zeta. rewrite Hw, events_bind, resolve_target_path_value.
    rewrite strip_anchor_idemp, Htarget. simpl. rewrite Hsafe.
    apply elem_of_app. right.
    unfold exists_, events, mbind, M_bind. rewrite Hmissing. simpl. by left.
  - intros root_dir errs Hrun Hfrom Huniq.
    eapply first_check_is_reported; try done.
    + unfold classified_regular in Hreg.
      by apply andb_true_iff in Hreg as [? _].
    + intros st st' Hfresh Hstep.
      destruct (Hfirst st Hfresh) as (st'' & Hv & Herr).
      rewrite Hv in Hstep. injection Hstep as <-. rewrite Herr.
      apply elem_of_app. right. by left.
Qed.

End Verdict.

(** ** Repetitions, fragments and the files a scan touches *)

Lemma for_each_noop {A S} (body : A → S → M S) (l : list A) (s : S) :
  (∀ x, x ∈ l → body x s = (Some s, [])) →
  for_each body l s = (Some s, []).
Proof.
  induction l as [|x l IH]; intros Hbody; [done|]. simpl.
  rewrite Hbody by by left. unfold mbind, M_bind.
  rewrite IH; [done|]. intros y Hy. apply Hbody. by right.
Qed.

Lemma for_each_member_events {A S} (body : A → S → M S) l s s' x :
  value (for_each body l s) = Some s' → x ∈ l →
  ∃ s1, ∀ e, e ∈ events (body x s1) → e ∈ events (for_each body l s).
Proof.
  revert s. induction l as [|y l IH]; intros s Hrun Hx.
  { by apply elem_of_nil in Hx. }
  rewrite value_for_each_cons in Hrun. simpl. 
  destruct (value (body y s)) as [s1|] eqn:E; [|done]. simpl in Hrun.
  apply elem_of_cons in Hx as [->|Hx].
  - exists s. intros e He. rewrite events_bind. apply elem_of_app. by left.
  - destruct (IH s1 Hrun Hx) as (s2 & Hs2). exists s2. intros e He.
    rewrite events_bind, E. apply elem_of_app. right. by apply Hs2.
Qed.

Section Repetitions.

Context (os : OS) (REPO_ROOT : Path).

Lemma check_link_again (md_file : Path) (link : string) (st st' : ScanState) :
  value (check_link os REPO_ROOT md_file link st) = Some st' →
  check_link os REPO_ROOT md_file link st' = (Some st', []).
Proof.
  intros Hstep. destruct (not_skipped link) eqn:Hns.
  - apply check_link_seen. by eapply check_link_enters_key.
  - by apply check_link_not_skipped_false.
Qed.

(** X8: what has been checked is not checked again.  A link checked a
    second time in the state its first check left changes nothing and asks
    nothing of the file system; and a file checked a second time in the
    state its first check left is read again, but none of its links is
    resolved or looked for, and the state stays as it is. *)
Theorem checking_again_changes_nothing (md_file : Path) :
  (∀ link st st',
     value (check_link os REPO_ROOT md_file link st) = Some st' →
     check_link os REPO_ROOT md_file link st' = (Some st', []))
  ∧ (∀ st st',
       value (check_file os REPO_ROOT md_file st) = Some st' →
       value (check_file os REPO_ROOT md_file st') = Some st'
       ∧ Forall (λ e, e = EvOpen md_file ∨ e = EvWarn md_file)
           (events (check_file os REPO_ROOT md_file st'))).
Proof.
  split; [intros link st st'; apply check_link_again|].
  intros st st' Hrun.
  destruct (excluded md_file) eqn:Hex.
  { rewrite check_file_excluded by done. split; [done|constructor]. }
  destruct (os_read os md_file) as [content|] eqn:Hread; cycle 1.
  { rewrite check_file_unreadable by done. split; [done|].
    simpl. rewrite !Forall_cons, Forall_nil. auto. }
  rewrite (check_file_readable _ _ _ st content) in Hrun by done.
  rewrite (check_file_readable _ _ _ st' content) by done.
  simpl in Hrun.
  rewrite for_each_noop;
    [split; [done|]; simpl; rewrite Forall_cons, Forall_nil; auto|].
  intros [text link] Hlink.
  destruct (not_skipped link) eqn:Hns; cycle 1.
  { by apply check_link_not_skipped_false. }
  apply check_link_seen.
  refine (for_each_reaches (λ _, True)
            (λ s, check_key md_file link ∈ checked s)
            _ _ _ _ (text, link) Hlink I Hrun _ _ _).
  - done.
  - intros s1 s2 _. by apply check_link_enters_key.
  - intros [t l] s1 s2 _ Hin Hstep.
    apply check_link_grows in Hstep as [Hsub _]. by apply Hsub.
Qed.

(** X9: the files a scan touches.  It opens only files that the
    enumeration of its root yields and that discovery keeps, and it warns
    only about such files that cannot be read; when the scan returns, every
    such file was opened, and warned about when it cannot be read. *)
Theorem scan_opens_exactly_the_kept_files (root_dir : string) :
  Forall (file_event os root_dir)
    (events (check_links os REPO_ROOT root_dir))
  ∧ (∀ errs md_file,
       value (check_links os REPO_ROOT root_dir) = Some errs →
       md_file ∈ os_rglob os (PurePath.parse root_dir) →
       excluded md_file = false →
       EvOpen md_file ∈ events (check_links os REPO_ROOT root_dir)
       ∧ (os_read os md_file = None →
          EvWarn md_file ∈ events (check_links os REPO_ROOT root_dir))).
Proof.
  split.
  - unfold check_links. rewrite events_bind. simpl.
    constructor; [done|]. rewrite events_bind. apply Forall_app.
    split; [|by destruct (value _)].
    apply for_each_events. intros md_file st Hfile.
    destruct (excluded md_file) eqn:Hex.
    { rewrite check_file_excluded by done. constructor. }
    destruct (os_read os md_file) as [content|] eqn:Hread.
    + rewrite (check_file_readable _ _ _ _ content) by done. simpl.
      constructor; [done|]. apply for_each_events.
      intros [text link] s1 _.
      eapply Forall_impl; [apply check_link_events|]. by intros [].
    + rewrite check_file_unreadable by done. by repeat constructor.
  - intros errs md_file (st & Hrun & _)%check_links_value Hfile Hex.
    destruct (for_each_member_events _ _ _ _ _ Hrun Hfile) as (s1 & Hs1).
    assert (∀ e, e ∈ events (check_file os REPO_ROOT md_file s1) →
                 e ∈ events (check_links os REPO_ROOT root_dir)) as Hin.
    { intros e He. unfold check_links. rewrite events_bind. simpl.
      right. rewrite events_bind. apply elem_of_app. left. by apply Hs1. }
    destruct (os_read os md_file) as [content|] eqn:Hread.
    + split; [|done]. apply Hin.
      rewrite (check_file_readable _ _ _ _ content) by done. by left.
    + split; [|intros _]; apply Hin; rewrite check_file_unreadable by done.
      * by left.
      * right. by left.
Qed.

(** X11: the fragment of a link decides nothing.  Two links that are not
    skipped, are new to the scan and differ only behind the anchor sign
    cause the same file-system events in the same file, both raise or both
    return, and what the second appends is what the first appends with the
    link replaced. *)
Theorem fragment_does_not_change_the_verdict
    (md_file : Path) (link1 link2 : string) (st : ScanState) :
  Str.strip_anchor link1 = Str.strip_anchor link2 →
  not_skipped link1 = true → not_skipped link2 = true →
  check_key md_file link1 ∉ checked st →
  check_key md_file link2 ∉ checked st →
  events (check_link os REPO_ROOT md_file link1 st)
  = events (check_link os REPO_ROOT md_file link2 st)
  ∧ match value (check_link os REPO_ROOT md_file link1 st),
          value (check_link os REPO_ROOT md_file link2 st) with
    | Some st1, Some st2 =>
        drop (length (errors st)) (errors st2)
        = relink link2 <$> drop (length (errors st)) (errors st1)
    | None, None => True
    | _, _ => False
    end.
Proof.
  intros Heq (He1 & Ha1 & Ht1 & Hc1)%not_skipped_inv
    (He2 & Ha2 & Ht2 & Hc2)%not_skipped_inv Hf1 Hf2.
  unfold check_link. rewrite He1, Ha1, Ht1, He2, Ha2, Ht2, Heq.
  destruct (decide (Str.strip_anchor link2 = "")); [done|].
  destruct (decide (check_key md_file link1 ∈ checked st)); [done|].
  destruct (decide (check_key md_file link2 ∈ checked st)); [done|].
  cbv zeta. destruct (is_wiki_style_link _ _).
  - destruct (check_wiki_style_link os REPO_ROOT (Str.strip_anchor link2)
                md_file) as [[[]|] evs];
      unfold mbind, M_bind, mret, M_ret, value, events; simpl;
      (split; [done|]); rewrite ?drop_app_length, ?drop_all; done.
  - destruct (resolve_target_path os REPO_ROOT (Str.strip_anchor link2)
                md_file) as [[[t|]|] evs];
      unfold mbind, M_bind, mret, M_ret, value, events, exists_; simpl;
      [destruct (os_exists os t); simpl|..];
      (split; [done|]); rewrite ?drop_app_length, ?drop_all; done.
Qed.

End Repetitions.

(** ** What the exit status tells *)

Section Status.

Context (os : OS) (REPO_ROOT : Path).

(** X12: [resolve_target_path] only ever returns a path that
    [is_path_safe] accepts: the target it computed for the anchor-stripped
    link, resolving to the repository root or below it. *)
Theorem resolve_target_path_returns_safe_paths
    (link : string) (file_path target : Path) :
  value (resolve_target_path os REPO_ROOT link file_path)
  = Some (Some target) →
  regular_target os REPO_ROOT (Str.strip_anchor link) file_path = Some target
  ∧ value (is_path_safe os REPO_ROOT target) = Some true
  ∧ ∃ resolved_target resolved_root,
      os_resolve os target = Some resolved_target
      ∧ os_resolve os REPO_ROOT = Some resolved_root
      ∧ path_root resolved_target = path_root resolved_root
      ∧ path_tail resolved_root `prefix_of` path_tail resolved_target.
Proof.
  rewrite resolve_target_path_value.
  destruct (regular_target _ _ _ _) as [t|]; [|done]. simpl.
  destruct (path_safe os REPO_ROOT t) eqn:Hsafe; [|done].
  intros [= <-]. split; [done|].
  assert (value (is_path_safe os REPO_ROOT t) = Some true) as Hv
    by by rewrite is_path_safe_value, Hsafe.
  split; [done|].
  revert Hv. rewrite is_path_safe_value. unfold path_safe.
  destruct (os_resolve os t) as [rt|]; [|done].
  destruct (os_resolve os REPO_ROOT) as [rr|]; [|done].
  intros [= [Heq%bool_decide_eq_true|Hin%bool_decide_eq_true]%orb_true_iff];
    exists rt, rr.
  - subst rr. by repeat split.
  - apply parents_spec in Hin as (Hr & k & _ & Ht).
    repeat split; [done|]. by exists k.
Qed.

(** X13: exit status 1 is never raised without a reason: when [main]
    returns 1, some file the scan read holds a link whose record is
    justified, that is, a wiki page that is unsafe or missing, a target
    outside the repository root, or a target inside it that does not
    exist. *)
Theorem exit_status_one_has_a_broken_link :
  value (main os REPO_ROOT) = Some 1 →
  ∃ e md_file link,
    extracted_from os default_root_dir md_file link
    ∧ justified os REPO_ROOT md_file link e.
Proof.
  rewrite main_value.
  destruct (value (check_links os REPO_ROOT default_root_dir))
    as [errs|] eqn:Hrun; [|done]. simpl.
  destruct errs as [|e errs]; [done|]. intros _.
  destruct (check_links_invariant_extracted os REPO_ROOT
              (λ st, ∀ e, e ∈ errors st →
                          ∃ md_file link,
                            extracted_from os default_root_dir md_file link
                            ∧ justified os REPO_ROOT md_file link e)
              default_root_dir (e :: errs)) as (st & Hst & Heq);
    [|by intros ? ?%elem_of_nil|done|].
  - intros md_file link s1 s2 Hfrom Hs1 Hstep e'.
    apply check_link_appends_justified in Hstep
      as [->|[->|(e'' & -> & Hjust)]]; [apply Hs1..|].
    intros [?|Hin%list_elem_of_singleton]%elem_of_app; [by apply Hs1|].
    subst e''. by exists md_file, link.
  - destruct (Hst e) as (md_file & link & ? & ?); [rewrite <- Heq; by left|].
    by exists e, md_file, link.
Qed.

(** X14: exit status 0 means that the links are valid: when [main] returns
    0, every link that is extracted from a file the scan read, is not
    skipped and does not share its key with another pair is a wiki-style
    link whose page is safe and exists, or a regular link whose target is
    safe and exists. *)
Theorem exit_status_zero_means_links_are_valid
    (md_file : Path) (link : string) :
  value (main os REPO_ROOT) = Some 0 →
  extracted_from os default_root_dir md_file link →
  key_unique os default_root_dir md_file link →
  not_skipped link = true →
  link_ok os REPO_ROOT md_file link.
Proof.
  rewrite main_value.
  destruct (value (check_links os REPO_ROOT default_root_dir))
    as [errs|] eqn:Hrun; [|done]. simpl.
  destruct errs as [|e errs]; [|done]. intros _ Hfrom Huniq Hns.
  assert (∀ rec,
            (∀ st st', check_key md_file link ∉ checked st →
               value (check_link os REPO_ROOT md_file link st) = Some st' →
               rec ∈ errors st') → False) as Hnone.
  { intros rec Hfirst.
    by eapply elem_of_nil, (first_check_is_reported os REPO_ROOT
                              default_root_dir [] md_file link rec). }
  unfold link_ok.
  destruct (classified_cases md_file link Hns) as [Hwiki|Hreg].
  - left. split; [done|].
    destruct (_ && _) eqn:Hok; [done|]. exfalso.
    apply (Hnone (mkError (PurePath.str md_file) link
                    (PurePath.str (PurePath.parent md_file
                                   // (Str.strip_anchor link +:+ ".md")))
                    "wiki-style")).
    intros st st' Hfresh. rewrite check_link_wiki_value by done. cbv zeta.
    rewrite Hok. intros [= <-]. simpl. apply elem_of_app. right. by left.
  - right. split; [done|].
    destruct (regular_target os REPO_ROOT (Str.strip_anchor link) md_file)
      as [t|] eqn:Ht; cycle 1.
    { exfalso. apply (Hnone (mkError "" "" "" "")).
      intros st st' Hfresh.
      by rewrite check_link_regular_value, Ht by done. }
    exists t. split; [done|].
    destruct (path_safe os REPO_ROOT t) eqn:Hsafe; cycle 1.
    { exfalso.
      apply (Hnone (mkError (PurePath.str md_file) link
                      "UNSAFE PATH (outside repository)" "security")).
      intros st st' Hfresh.
      rewrite check_link_regular_value, Ht by done. simpl. rewrite Hsafe.
      intros [= <-]. simpl. apply elem_of_app. right. by left. }
    split; [done|].
    destruct (os_exists os t) eqn:Hex; [done|]. exfalso.
    apply (Hnone (mkError (PurePath.str md_file) link (PurePath.str t)
                    "regular")).
    intros st st' Hfresh.
    rewrite check_link_regular_value, Ht by done. simpl.
    rewrite Hsafe, Hex. intros [= <-]. simpl. apply elem_of_app. right.
    by left.
Qed.

End Status.

(** ** The further properties on the example tree *)

Module FurtherOnExampleTree.

Import Examples.

Lemma extracted_links_occur_in_content_witness :
  (∃ before after,
     "See [setup](./setup.md)." = before +:+ markdown_link "setup" "./setup.md"
                                  +:+ after)
  ∧ Str.contains "setup" "]" = false
  ∧ Str.contains "./setup.md" ")" = false
  ∧ "./setup.md" ≠ "".
Proof.
  apply (extracted_links_occur_in_content "See [setup](./setup.md)."
           "setup" "./setup.md").
  vm_compute. left.
Defined.

Lemma markdown_link_is_extracted_witness :
  find_markdown_links
    ("An image: !" +:+ markdown_link "logo" "img/logo.png" +:+ " and [more](x.md)")
  = ("logo", "img/logo.png") :: find_markdown_links " and [more](x.md)".
Proof.
  apply (markdown_link_is_extracted "An image: !" "logo" "img/logo.png"
           " and [more](x.md)"); [reflexivity..|discriminate].
Defined.

Lemma every_record_is_justified_witness :
  ∃ md_file link,
    extracted_from at_root default_root_dir md_file link
    ∧ justified at_root repo_root md_file link
        (mkError "docs/wiki/Home.md" "Nope#sec" "docs/wiki/Nope.md"
           "wiki-style").
Proof.
  apply (every_record_is_justified at_root repo_root default_root_dir
           report_at_root).
  - vm_compute; reflexivity.
  - apply (bool_decide_unpack _). vm_compute. exact I.
Defined.

Lemma missing_regular_target_is_reported_witness :
  let t := PurePath.parse "/repo/docs/setup.md" in
  let record := mkError (PurePath.str guide) "./setup.md" (PurePath.str t)
                  "regular" in
  (∀ st, check_key guide "./setup.md" ∉ checked st →
     (∃ st', value (check_link at_root repo_root guide "./setup.md" st)
             = Some st'
             ∧ errors st' = errors st ++ [record])
     ∧ EvExists t ∈ events (check_link at_root repo_root guide "./setup.md" st))
  ∧ (∀ root_dir errs,
       value (check_links at_root repo_root root_dir) = Some errs →
       extracted_from at_root root_dir guide "./setup.md" →
       key_unique at_root root_dir guide "./setup.md" →
       record ∈ errs).
Proof.
  apply (missing_regular_target_is_reported at_root repo_root guide
           "./setup.md" (PurePath.parse "/repo/docs/setup.md"));
    vm_compute; reflexivity.
Defined.

Lemma fragment_does_not_change_the_verdict_witness :
  events (check_link at_root repo_root guide "./setup.md#install" start)
  = events (check_link at_root repo_root guide "./setup.md#usage" start)
  ∧ match value (check_link at_root repo_root guide "./setup.md#install" start),
          value (check_link at_root repo_root guide "./setup.md#usage" start)
    with
    | Some st1, Some st2 =>
        drop (length (errors start)) (errors st2)
        = relink "./setup.md#usage"
            <$> drop (length (errors start)) (errors st1)
    | None, None => True
    | _, _ => False
    end.
Proof.
  apply (fragment_does_not_change_the_verdict at_root repo_root guide
           "./setup.md#install" "./setup.md#usage" start);
    [vm_compute; reflexivity.. | apply not_elem_of_empty
    | apply not_elem_of_empty].
Defined.

Lemma resolve_target_path_returns_safe_paths_witness :
  let target := PurePath.parse "/repo/docs/wiki/Home.md" in
  regular_target at_root repo_root (Str.strip_anchor "wiki/Home.md#top") guide
  = Some target
  ∧ value (is_path_safe at_root repo_root target) = Some true
  ∧ ∃ resolved_target resolved_root,
      os_resolve at_root target = Some resolved_target
      ∧ os_resolve at_root repo_root = Some resolved_root
      ∧ path_root resolved_target = path_root resolved_root
      ∧ path_tail resolved_root `prefix_of` path_tail resolved_target.
Proof.
  apply (resolve_target_path_returns_safe_paths at_root repo_root
           "wiki/Home.md#top" guide (PurePath.parse "/repo/docs/wiki/Home.md")).
  vm_compute; reflexivity.
Defined.

Lemma exit_status_one_has_a_broken_link_witness :
  ∃ e md_file link,
    extracted_from at_root default_root_dir md_file link
    ∧ justified at_root repo_root md_file link e.
Proof.
  apply (exit_status_one_has_a_broken_link at_root repo_root).
  vm_compute; reflexivity.
Defined.

(** In the tree without a broken link the link of [README.md] to the guide
    is extracted from a scanned file and shares its key with no other
    pair. *)
Lemma sound_tree_conditions :
  extracted_from at_root_sound default_root_dir (PurePath.parse "README.md")
    "docs/guide.md#start"
  ∧ key_unique at_root_sound default_root_dir (PurePath.parse "README.md")
      "docs/guide.md#start".
Proof.
  assert (os_rglob at_root_sound (PurePath.parse default_root_dir)
          = PurePath.parse <$> ["README.md"; "docs/guide.md"]) as Hfiles
    by (vm_compute; reflexivity).
  split.
  - split; [|split; [reflexivity|]].
    + rewrite Hfiles. apply (bool_decide_unpack _). vm_compute. exact I.
    + eexists _, "guide". split; [reflexivity|]. vm_compute. left.
  - intros f l Hf Heq. rewrite Hfiles in Hf.
    repeat (apply elem_of_cons in Hf as [->|Hf]);
      [vm_compute in Heq; by simplify_eq..|by apply elem_of_nil in Hf].
Qed.

Lemma exit_status_zero_means_links_are_valid_witness :
  link_ok at_root_sound repo_root (PurePath.parse "README.md")
    "docs/guide.md#start".
Proof.
  apply (exit_status_zero_means_links_are_valid at_root_sound repo_root
           (PurePath.parse "README.md") "docs/guide.md#start");
    [vm_compute; reflexivity | apply sound_tree_conditions
    | apply sound_tree_conditions | reflexivity].
Defined.

End FurtherOnExampleTree.
